(** * CounterApp: registry lifecycle client, listener supervision,
      TLS context construction, JWT role validation and health status.

    A shallow embedding of the Python sources

      - [config/eureka_config.py]      (module [eureka], class [EurekaConfig])
      - [config/http_server_config.py] (module [http_server_config])
      - [config/security_config.py]    (class [SecurityConfig])
      - [config/keycloak_config.py]    (class [KeycloakConfig])
      - [controllers/health_controller.py] (class [HealthController])
      - [app.py]                       (module [app])

    Python exceptions are an explicit [result]; module globals, threads and
    the registry's answers live in an explicit [World] that every operation
    threads through; what an operation does to the outside (requests,
    thread starts, joins, sleeps, signals to other threads) is recorded in
    a trace of [event]s.
    Console output ([print], [logger]) is not modelled. *)

From Stdlib Require Import ZArith QArith Lia Ascii String.
From stdpp Require Import base option strings pretty list gmap.

Local Set Warnings "-register-all".
Local Open Scope Z_scope.
Local Open Scope string_scope.
Local Open Scope list_scope.

(** ** Python values, exceptions and results *)

Module Py.

(** The body of an HTTP answer as [read().decode('utf-8')] sees it: bytes
    that are valid UTF-8 (given by their text) or bytes that are not. *)
Inductive body :=
| Utf8 (text : string)
| NotUtf8.

Inductive exn :=
| ValueError
| AttributeError
| TypeError
| KeyError
| DecodeError                       (* jwt.exceptions.DecodeError and kin *)
| UnicodeDecodeError
| HTTPError (code : Z) (b : body)   (* urllib.error.HTTPError *)
| URLError                          (* urllib.error.URLError, timeouts *)
| OSError                           (* PermissionError, FileNotFoundError *)
| SSLError
| PsutilError.

Inductive result (A : Type) :=
| Return (a : A)
| Raise (e : exn).
Arguments Return {A} a.
Arguments Raise {A} e.

#[global] Instance result_ret : MRet result := λ A a, Return a.
#[global] Instance result_bind : MBind result := λ A B k m,
  match m with
  | Return a => k a
  | Raise e => Raise e
  end.

(** [try: m except Exception as e: h e] *)
Definition try_except {A} (m : result A) (h : exn → result A) : result A :=
  match m with
  | Return a => Return a
  | Raise e => h e
  end.

(** Values that [json.loads] produces, which is what a decoded token
    holds ([Dict[str, Any]]). Numbers are kept as integers: every
    operation below treats an int and a float alike. A dict is kept as
    its items; a lookup takes the first item with the key. *)
Inductive pyval :=
| PNone
| PBool (b : bool)
| PNum (z : Z)
| PStr (s : string)
| PList (l : list pyval)
| PDict (items : list (string * pyval)).

Definition pydict := list (string * pyval).

Fixpoint dict_lookup (k : string) (d : pydict) : option pyval :=
  match d with
  | [] => None
  | (k', v) :: d' => if String.eqb k k' then Some v else dict_lookup k d'
  end.

(** [d.get(k, dflt)] for a dict [d] *)
Definition dict_get (d : pydict) (k : string) (dflt : pyval) : pyval :=
  default dflt (dict_lookup k d).

(** [v.get(k, dflt)] for an arbitrary value: only a dict has [get]. *)
Definition get (v : pyval) (k : string) (dflt : pyval) : result pyval :=
  match v with
  | PDict d => Return (dict_get d k dflt)
  | _ => Raise AttributeError
  end.

(** [v[k]] for a string key [k] *)
Definition getitem (v : pyval) (k : string) : result pyval :=
  match v with
  | PDict d =>
      match dict_lookup k d with
      | Some x => Return x
      | None => Raise KeyError
      end
  | _ => Raise TypeError
  end.

(** [needle in hay] on two strings: substring test *)
Fixpoint str_contains (needle hay : string) : bool :=
  String.prefix needle hay
  || match hay with
     | EmptyString => false
     | String _ hay' => str_contains needle hay'
     end.

Definition is_str (x : string) (v : pyval) : bool :=
  match v with
  | PStr s => String.eqb s x
  | _ => false
  end.

(** [x in v] for a string [x]: element of a list, key of a dict,
    substring of a string; [TypeError] on anything else. *)
Definition contains (x : string) (v : pyval) : result bool :=
  match v with
  | PList l => Return (existsb (is_str x) l)
  | PDict d => Return (bool_decide (is_Some (dict_lookup x d)))
  | PStr s => Return (str_contains x s)
  | PNone | PBool _ | PNum _ => Raise TypeError
  end.

(** Truth value of an optional string ([None] and [''] are false). *)
Definition truthy_str (o : option string) : bool :=
  match o with
  | Some s => negb (String.eqb s EmptyString)
  | None => false
  end.

(** [f"{o}"] for an attribute that holds a string or [None] *)
Definition fmt (o : option string) : string := default "None" o.

End Py.

Export Py.

(** ** config/keycloak_config.py *)

Module KeycloakConfig.

Definition required_realm_role : string := "gateway_admin_realm".
Definition required_client_id : string := "linqra-gateway-client".
Definition required_client_role : string := "gateway_admin".

Definition _check_realm_roles (decoded_token : pydict) : result bool :=
  try_except
    (realm_access ← Return (dict_get decoded_token "realm_access" (PDict []));
     realm_roles ← get realm_access "roles" (PList []);
     contains required_realm_role realm_roles)
    (fun _ => Return false).

Definition _check_client_roles (decoded_token : pydict) : result bool :=
  try_except
    (resource_access ← Return (dict_get decoded_token "resource_access" (PDict []));
     present ← contains required_client_id resource_access;
     if negb present then Return false
     else
       client ← getitem resource_access required_client_id;
       client_roles ← get client "roles" (PList []);
       contains required_client_role client_roles)
    (fun _ => Return false).

Section Decode.
(** [jwt.decode(token, options={"verify_signature": False})]: the
    claims of the token, or the exception PyJWT raises. *)
Variable jwt_decode : string → result pydict.

Definition validate_jwt_roles (token : string) : result bool :=
  try_except
    (decoded_token ← jwt_decode token;
     has_realm_role ← _check_realm_roles decoded_token;
     has_client_role ← _check_client_roles decoded_token;
     let is_valid := has_realm_role && has_client_role in
     Return is_valid)
    (fun _ => Return false).
End Decode.

End KeycloakConfig.

(** ** The world outside the interpreter *)

Module Sys.

Inductive http_method := POST | PUT | DELETE.

(** What [urllib.request.urlopen] does with one request: hand back a
    response object, raise [HTTPError], or raise for a network failure
    (connection refused, timeout, TLS failure). *)
Inductive reply :=
| Response (status : Z) (b : body)
| ErrorStatus (code : Z) (b : body)
| Unreachable.

Inductive target :=
| heartbeat_worker                  (* EurekaConfig._heartbeat_worker *)
| run_http_server (port : Z).       (* http_server_config.run_http_server *)

Inductive event :=
| UrlOpen (m : http_method) (url : string)
| ThreadStart (tid : nat) (t : target)
| ThreadJoin (tid : nat) (timeout : Z)
| EventSet                          (* _shutdown_event.set() *)
| FlagWrite (running : bool)        (* self.heartbeat_running = ..., which
                                       the heartbeat thread polls *)
| Sleep (secs : Z)
| AppRun (port : Z) (tls : bool)    (* app.run(...) of the primary listener *)
| Exit (code : Z).                  (* sys.exit *)

(** class [EurekaConfig]: the attributes of the instance *)
Record EurekaConfig := {
  environment : string;
  eureka_server : string;
  eureka_port : string;
  eureka_path : string;
  eureka_server_url : string;
  app_name : option string;
  instance_port : Z;
  instance_host : string;
  instance_ip : string;
  instance_id : string;
  secure_port_enabled : bool;
  non_secure_port_enabled : bool;
  heartbeat_interval : Z;
  heartbeat_thread : option nat;
  heartbeat_running : bool;
  health_check_url : string;
  status_page_url : string
}.

Record World := {
  environ : gmap string string;     (* os.environ *)
  route_ip : option string;         (* address of the probe socket, if it connects *)
  host_ip : option string;          (* gethostbyname(gethostname()), if it resolves *)
  uuid4 : nat → string;             (* the uuids to come *)
  uuids_drawn : nat;
  registry : list reply;            (* the registry's answers to the requests to come;
                                       once exhausted it is unreachable *)
  alive : gset nat;                 (* threads for which is_alive() holds *)
  lingering : gset nat;             (* threads that outlive a join timeout *)
  next_tid : nat;
  _eureka_config : option EurekaConfig;   (* eureka_config._eureka_config *)
  _http_server_thread : option nat;       (* http_server_config._http_server_thread *)
  _shutdown_event : bool                  (* http_server_config._shutdown_event *)
}.

Definition set_registry (rs : list reply) (w : World) : World :=
  {| environ := environ w; route_ip := route_ip w; host_ip := host_ip w;
     uuid4 := uuid4 w; uuids_drawn := uuids_drawn w; registry := rs;
     alive := alive w; lingering := lingering w; next_tid := next_tid w;
     _eureka_config := _eureka_config w;
     _http_server_thread := _http_server_thread w;
     _shutdown_event := _shutdown_event w |}.

Definition set_threads (a : gset nat) (n : nat) (w : World) : World :=
  {| environ := environ w; route_ip := route_ip w; host_ip := host_ip w;
     uuid4 := uuid4 w; uuids_drawn := uuids_drawn w; registry := registry w;
     alive := a; lingering := lingering w; next_tid := n;
     _eureka_config := _eureka_config w;
     _http_server_thread := _http_server_thread w;
     _shutdown_event := _shutdown_event w |}.

Definition set_uuids_drawn (n : nat) (w : World) : World :=
  {| environ := environ w; route_ip := route_ip w; host_ip := host_ip w;
     uuid4 := uuid4 w; uuids_drawn := n; registry := registry w;
     alive := alive w; lingering := lingering w; next_tid := next_tid w;
     _eureka_config := _eureka_config w;
     _http_server_thread := _http_server_thread w;
     _shutdown_event := _shutdown_event w |}.

Definition set_eureka_config (c : option EurekaConfig) (w : World) : World :=
  {| environ := environ w; route_ip := route_ip w; host_ip := host_ip w;
     uuid4 := uuid4 w; uuids_drawn := uuids_drawn w; registry := registry w;
     alive := alive w; lingering := lingering w; next_tid := next_tid w;
     _eureka_config := c;
     _http_server_thread := _http_server_thread w;
     _shutdown_event := _shutdown_event w |}.

Definition set_http_server_thread (t : option nat) (w : World) : World :=
  {| environ := environ w; route_ip := route_ip w; host_ip := host_ip w;
     uuid4 := uuid4 w; uuids_drawn := uuids_drawn w; registry := registry w;
     alive := alive w; lingering := lingering w; next_tid := next_tid w;
     _eureka_config := _eureka_config w;
     _http_server_thread := t;
     _shutdown_event := _shutdown_event w |}.

Definition set_shutdown_event (b : bool) (w : World) : World :=
  {| environ := environ w; route_ip := route_ip w; host_ip := host_ip w;
     uuid4 := uuid4 w; uuids_drawn := uuids_drawn w; registry := registry w;
     alive := alive w; lingering := lingering w; next_tid := next_tid w;
     _eureka_config := _eureka_config w;
     _http_server_thread := _http_server_thread w;
     _shutdown_event := b |}.

(** A computation: from a world to its outcome, the world it leaves and
    the events it caused, oldest first. *)
Definition M (A : Type) : Type := World → result A * World * list event.

Definition ret {A} (a : A) : M A := λ w, (Return a, w, []).
Definition raise {A} (e : exn) : M A := λ w, (Raise e, w, []).

#[global] Instance M_ret : MRet M := @ret.
#[global] Instance M_bind : MBind M := λ A B k m w,
  match m w with
  | (Return a, w1, t1) =>
      match k a w1 with
      | (r, w2, t2) => (r, w2, t1 ++ t2)
      end
  | (Raise e, w1, t1) => (Raise e, w1, t1)
  end.

(** [try: m except ...: h e], where [h] picks the first clause that
    matches [e]. An exception of [h] itself leaves the statement. *)
Definition try_ {A} (m : M A) (h : exn → M A) : M A := λ w,
  match m w with
  | (Return a, w1, t1) => (Return a, w1, t1)
  | (Raise e, w1, t1) =>
      match h e w1 with
      | (r, w2, t2) => (r, w2, t1 ++ t2)
      end
  end.

Definition gets {A} (f : World → A) : M A := λ w, (Return (f w), w, []).
Definition modify (f : World → World) : M unit := λ w, (Return (), f w, []).
Definition emit (e : event) : M unit := λ w, (Return (), w, [e]).
Definition lift {A} (r : result A) : M A := λ w, (r, w, []).

Definition outcome {A} (x : result A * World * list event) : result A := x.1.1.
Definition world_of {A} (x : result A * World * list event) : World := x.1.2.
Definition trace {A} (x : result A * World * list event) : list event := x.2.

(** [os.environ.get(k, dflt)] *)
Definition getenv (k dflt : string) : M string :=
  gets (λ w, default dflt (environ w !! k)).

(** [urllib.request.urlopen(req, ...)]: the response's status and body,
    for a URL that is sent as it stands; that a malformed URL (one with
    a blank, say) is refused before anything is sent is not modelled. *)
Definition urlopen (m : http_method) (url : string) : M (Z * body) :=
  _ ← emit (UrlOpen m url);
  rs ← gets registry;
  match rs with
  | [] => raise URLError
  | r :: rs' =>
      _ ← modify (set_registry rs');
      match r with
      | Response status b => ret (status, b)
      | ErrorStatus code b => raise (HTTPError code b)
      | Unreachable => raise URLError
      end
  end.

(** [b.decode('utf-8')] *)
Definition decode (b : body) : M string :=
  match b with
  | Utf8 text => ret text
  | NotUtf8 => raise UnicodeDecodeError
  end.

(** [t = threading.Thread(target=...); t.start()]. The thread is taken
    to run until a join finds it ended; that a thread may end on its
    own before is not modelled. *)
Definition thread_start (t : target) : M nat :=
  tid ← gets next_tid;
  a ← gets alive;
  _ ← modify (set_threads ({[tid]} ∪ a) (S tid));
  _ ← emit (ThreadStart tid t);
  ret tid.

Definition is_alive (tid : nat) : M bool :=
  gets (λ w, bool_decide (tid ∈ alive w)).

(** [t.join(timeout=...)]: returns when the thread has ended or the
    timeout has passed, whichever is first. *)
Definition join (tid : nat) (timeout : Z) : M unit :=
  _ ← emit (ThreadJoin tid timeout);
  modify (λ w, if bool_decide (tid ∈ lingering w) then w
               else set_threads (alive w ∖ {[tid]}) (next_tid w) w).

Definition sleep (secs : Z) : M unit := emit (Sleep secs).

End Sys.

Export Sys.

(** ** Python's reading of text

    A string is kept as its bytes, and what Python sees is their UTF-8
    decoding: that is how [os.environ] reads the environment. A byte
    that is part of no well-formed sequence reaches Python as a lone
    surrogate, which is no digit and no blank. *)

Module Text.

Definition byte (c : Ascii.ascii) : Z := Z.of_N (Ascii.N_of_ascii c).

Definition continuation (b : Z) : bool := ((128 <=? b) && (b <=? 191))%Z.

(** The code points of a string that is well-formed UTF-8. *)
Fixpoint utf8_decode (s : string) : option (list Z) :=
  match s with
  | EmptyString => Some []
  | String c0 s1 =>
      let b0 := byte c0 in
      if (b0 <? 128)%Z then cps ← utf8_decode s1; Some (b0 :: cps)
      else
        match s1 with
        | EmptyString => None
        | String c1 s2 =>
            let b1 := byte c1 in
            if negb (continuation b1) then None
            else if ((194 <=? b0) && (b0 <=? 223))%Z then
              cps ← utf8_decode s2;
              Some ((b0 - 192) * 64 + (b1 - 128) :: cps)
            else
              match s2 with
              | EmptyString => None
              | String c2 s3 =>
                  let b2 := byte c2 in
                  if negb (continuation b2) then None
                  else if ((224 <=? b0) && (b0 <=? 239))%Z then
                    if (((b0 =? 224) && (b1 <? 160))
                        || ((b0 =? 237) && (159 <? b1)))%Z then None
                    else
                      cps ← utf8_decode s3;
                      Some ((b0 - 224) * 4096 + (b1 - 128) * 64 + (b2 - 128)
                            :: cps)
                  else
                    match s3 with
                    | EmptyString => None
                    | String c3 s4 =>
                        let b3 := byte c3 in
                        if negb (continuation b3) then None
                        else if ((240 <=? b0) && (b0 <=? 244))%Z then
                          if (((b0 =? 240) && (b1 <? 144))
                              || ((b0 =? 244) && (143 <? b1)))%Z then None
                          else
                            cps ← utf8_decode s4;
                            Some ((b0 - 240) * 262144 + (b1 - 128) * 4096
                                  + (b2 - 128) * 64 + (b3 - 128) :: cps)
                        else None
                    end
              end
        end
  end.

(** The blanks beyond ASCII ([str.isspace]). *)
Definition is_space (cp : Z) : bool :=
  bool_decide (cp ∈ [133; 160; 5760; 8232; 8233; 8239; 8287; 12288])
  || ((8192 <=? cp) && (cp <=? 8202))%Z.

(** The code points of the digit zero of every script (Unicode 14, as
    Python 3.11 has it); the nine that follow each are its digits one
    to nine. *)
Definition decimal_zeros : list Z :=
  [48; 1632; 1776; 1984; 2406; 2534; 2662; 2790; 2918; 3046; 3174; 3302;
   3430; 3558; 3664; 3792; 3872; 4160; 4240; 6112; 6160; 6470; 6608; 6784;
   6800; 6992; 7088; 7232; 7248; 42528; 43216; 43264; 43472; 43504; 43600;
   44016; 65296; 66720; 68912; 69734; 69872; 69942; 70096; 70384; 70736;
   70864; 71248; 71360; 71472; 71904; 72016; 72784; 73040; 73120; 92768;
   92864; 93008; 120782; 120792; 120802; 120812; 120822; 123200; 123632;
   125264; 130032].

(** [unicodedata.decimal] *)
Definition decimal (cp : Z) : option Z :=
  (λ zero, cp - zero)
    <$> List.find (λ zero, (zero <=? cp) && (cp <=? zero + 9))%Z decimal_zeros.

(** What [int] makes of a character before it parses: an ASCII
    character stays, a blank becomes a space and a digit of any script
    the ASCII digit; another character cannot be part of a number. *)
Definition ascii_form (cp : Z) : option Z :=
  if (cp <? 128)%Z then Some cp
  else if is_space cp then Some 32
  else (λ d, 48 + d) <$> decimal cp.

(** The blanks that [int] skips around a number. *)
Definition is_blank (a : Z) : bool := (((9 <=? a) && (a <=? 13)) || (a =? 32))%Z.

Definition is_digit (a : Z) : bool := ((48 <=? a) && (a <=? 57))%Z.

Fixpoint skip_blanks (l : list Z) : list Z :=
  match l with
  | a :: l' => if is_blank a then skip_blanks l' else l
  | [] => []
  end.

(** The digits of a number, with single underscores between them: the
    value so far, the number of digits so far, and what follows the
    number. [after_digit] is false at the start and after an
    underscore, where a digit has to come. *)
Fixpoint digits (after_digit : bool) (acc count : Z) (l : list Z)
    : option (Z * Z * list Z) :=
  match l with
  | a :: l' =>
      if is_digit a then digits true (10 * acc + (a - 48)) (count + 1) l'
      else if (a =? 95)%Z then
        if after_digit then digits false acc count l' else None
      else if after_digit then Some (acc, count, l) else None
  | [] => if after_digit then Some (acc, count, []) else None
  end.

(** The limit on the digits of a number given as text
    ([sys.int_info.default_max_str_digits]). *)
Definition max_str_digits : Z := 4300.

(** The integer that a string denotes for [int]: blanks, an optional
    sign, digits, blanks. *)
Definition int_literal (s : string) : option Z :=
  cps ← utf8_decode s;
  chars ← mapM ascii_form cps;
  let body := skip_blanks chars in
  let signed :=
    match body with
    | a :: rest =>
        if (a =? 43)%Z then (1, rest)
        else if (a =? 45)%Z then (-1, rest)
        else (1, body)
    | [] => (1, [])
    end in
  parsed ← digits false 0 0 signed.2;
  let '(value, count, rest) := parsed in
  if (count <=? max_str_digits)%Z && forallb is_blank rest
  then Some (signed.1 * value)
  else None.

End Text.

(** ** config/eureka_config.py, class EurekaConfig *)

Module EurekaConfig.

Definition lower_ascii (c : Ascii.ascii) : Ascii.ascii :=
  let n := Ascii.N_of_ascii c in
  if ((65 <=? n) && (n <=? 90))%N then Ascii.ascii_of_N (n + 32) else c.

(** [s.lower()] *)
Fixpoint lower (s : string) : string :=
  match s with
  | EmptyString => EmptyString
  | String c s' => String (lower_ascii c) (lower s')
  end.

(** [int(s)] for a string [s]. *)
Definition int (s : string) : result Z :=
  match Text.int_literal s with
  | Some z => Return z
  | None => Raise ValueError
  end.

Definition _get_network_ip : M string :=
  w ← gets id;
  match route_ip w with
  | Some ip => ret ip
  | None =>
      match host_ip w with
      | Some ip => ret ip
      | None => ret "127.0.0.1"
      end
  end.

Definition with_security (secure non_secure : bool) (url : string)
    (self : EurekaConfig) : EurekaConfig :=
  {| environment := environment self; eureka_server := eureka_server self;
     eureka_port := eureka_port self; eureka_path := eureka_path self;
     eureka_server_url := url; app_name := app_name self;
     instance_port := instance_port self; instance_host := instance_host self;
     instance_ip := instance_ip self; instance_id := instance_id self;
     secure_port_enabled := secure; non_secure_port_enabled := non_secure;
     heartbeat_interval := heartbeat_interval self;
     heartbeat_thread := heartbeat_thread self;
     heartbeat_running := heartbeat_running self;
     health_check_url := health_check_url self;
     status_page_url := status_page_url self |}.

Definition with_urls (health status : string) (self : EurekaConfig) : EurekaConfig :=
  {| environment := environment self; eureka_server := eureka_server self;
     eureka_port := eureka_port self; eureka_path := eureka_path self;
     eureka_server_url := eureka_server_url self; app_name := app_name self;
     instance_port := instance_port self; instance_host := instance_host self;
     instance_ip := instance_ip self; instance_id := instance_id self;
     secure_port_enabled := secure_port_enabled self;
     non_secure_port_enabled := non_secure_port_enabled self;
     heartbeat_interval := heartbeat_interval self;
     heartbeat_thread := heartbeat_thread self;
     heartbeat_running := heartbeat_running self;
     health_check_url := health; status_page_url := status |}.

Definition with_heartbeat (running : bool) (thread : option nat)
    (self : EurekaConfig) : EurekaConfig :=
  {| environment := environment self; eureka_server := eureka_server self;
     eureka_port := eureka_port self; eureka_path := eureka_path self;
     eureka_server_url := eureka_server_url self; app_name := app_name self;
     instance_port := instance_port self; instance_host := instance_host self;
     instance_ip := instance_ip self; instance_id := instance_id self;
     secure_port_enabled := secure_port_enabled self;
     non_secure_port_enabled := non_secure_port_enabled self;
     heartbeat_interval := heartbeat_interval self;
     heartbeat_thread := thread;
     heartbeat_running := running;
     health_check_url := health_check_url self;
     status_page_url := status_page_url self |}.

Definition _apply_environment_overrides (self : EurekaConfig) : EurekaConfig :=
  let url := "https://" +:+ eureka_server self +:+ ":" +:+ eureka_port self
             +:+ eureka_path self in
  if String.eqb (environment self) "development" then
    with_security true false url self
  else if String.eqb (environment self) "production" then
    with_security true false (eureka_server_url self) self
  else if String.eqb (environment self) "testing" then
    with_security false true url self
  else self.

(** [EurekaConfig(environment=...)]. The opener that
    [_configure_ssl_context] installs (no certificate or host name
    check towards the registry) changes nothing that is modelled. *)
Definition __init__ (env_arg : option string) : M EurekaConfig :=
  flask_env ← getenv "FLASK_ENV" "development";
  let environment := if truthy_str env_arg then fmt env_arg else flask_env in
  eureka_server ← getenv "EUREKA_CLIENT_URL" "localhost";
  eureka_port ← getenv "EUREKA_CLIENT_PORT" "8761";
  eureka_path ← getenv "EUREKA_CLIENT_PATH" "/eureka/eureka/";
  let eureka_server_url :=
    "https://" +:+ eureka_server +:+ ":" +:+ eureka_port +:+ eureka_path in
  app_name ← gets (λ w, environ w !! "APP_NAME");
  if negb (truthy_str app_name) then raise ValueError
  else
    port ← gets (λ w, environ w !! "PORT");
    instance_port ← lift (match port with
                          | Some s => int s
                          | None => Return 5001
                          end);
    instance_host ← getenv "EUREKA_INSTANCE_URL" "localhost";
    instance_ip ← _get_network_ip;
    n ← gets uuids_drawn;
    uuid ← gets (λ w, uuid4 w n);
    _ ← modify (set_uuids_drawn (S n));
    let instance_id := fmt app_name +:+ ":" +:+ uuid in
    secure ← getenv "SECURE_PORT_ENABLED" "true";
    non_secure ← getenv "NON_SECURE_PORT_ENABLED" "false";
    let self :=
      _apply_environment_overrides
        {| environment := environment; eureka_server := eureka_server;
           eureka_port := eureka_port; eureka_path := eureka_path;
           eureka_server_url := eureka_server_url; app_name := app_name;
           instance_port := instance_port; instance_host := instance_host;
           instance_ip := instance_ip; instance_id := instance_id;
           secure_port_enabled := String.eqb (lower secure) "true";
           non_secure_port_enabled := String.eqb (lower non_secure) "true";
           heartbeat_interval := 30;
           heartbeat_thread := None;
           heartbeat_running := false;
           health_check_url := EmptyString;
           status_page_url := EmptyString |} in
    let protocol := if secure_port_enabled self then "https" else "http" in
    let base := protocol +:+ "://" +:+ instance_host +:+ ":"
                +:+ pretty instance_port in
    ret (with_urls (base +:+ "/health") (base +:+ "/") self).

(** The registration document that is posted is built from the
    attributes alone and cannot fail; only the request is recorded. *)
Definition register_with_eureka (self : EurekaConfig) : M bool :=
  try_
    (if negb (truthy_str (app_name self)) then ret false
     else
       let url := eureka_server_url self +:+ "apps/" +:+ fmt (app_name self) in
       response ← urlopen POST url;
       response_body ← decode response.2;
       if (response.1 =? 204)%Z then ret true else ret false)
    (λ e, match e with
          | HTTPError code b => _ ← decode b; ret false
          | _ => ret false
          end).

Definition deregister_from_eureka (self : EurekaConfig) : M bool :=
  try_
    (if negb (truthy_str (app_name self)) then ret false
     else
       let url := eureka_server_url self +:+ "apps/" +:+ fmt (app_name self)
                  +:+ "/" +:+ instance_id self in
       response ← urlopen DELETE url;
       if (response.1 =? 200)%Z then ret true else ret false)
    (λ e, match e with
          | HTTPError code b => ret false
          | _ => ret false
          end).

Definition send_heartbeat (self : EurekaConfig) : M bool :=
  try_
    (let url := eureka_server_url self +:+ "apps/" +:+ fmt (app_name self)
                +:+ "/" +:+ instance_id self in
     response ← urlopen PUT url;
     if (response.1 =? 200)%Z then ret true else ret false)
    (λ e, match e with
          | HTTPError code b => ret false
          | _ => ret false
          end).

(** The thread object that [self.heartbeat_thread] holds is alive. *)
Definition heartbeat_alive (self : EurekaConfig) : M bool :=
  match heartbeat_thread self with
  | None => ret false
  | Some tid => is_alive tid
  end.

(** Returns [self] as the call leaves it. *)
Definition start_heartbeat (self : EurekaConfig) : M EurekaConfig :=
  running ← heartbeat_alive self;
  if negb running then
    _ ← emit (FlagWrite true);
    tid ← thread_start heartbeat_worker;
    ret (with_heartbeat true (Some tid) self)
  else ret self.

Definition stop_heartbeat (self : EurekaConfig) : M EurekaConfig :=
  _ ← emit (FlagWrite false);
  let self := with_heartbeat false (heartbeat_thread self) self in
  running ← heartbeat_alive self;
  _ ← (if (running : bool) then
         match heartbeat_thread self with
         | Some tid => join tid 5
         | None => ret ()
         end
       else ret () : M unit);
  ret self.

(** [_heartbeat_worker], as the heartbeat thread runs it. The flag
    [self.heartbeat_running] is written by other threads, so what the
    loop reads at the head of each round is given from outside: [flags]
    has the value read at the first, second, ... round; the rounds past
    the end of [flags] are not observed. *)
Fixpoint _heartbeat_worker (self : EurekaConfig) (flags : list bool) : M unit :=
  match flags with
  | [] => ret ()
  | running :: flags' =>
      if (running : bool) then
        _ ← try_
              (_ ← send_heartbeat self;
               sleep (heartbeat_interval self))
              (λ e, sleep (heartbeat_interval self));
        _heartbeat_worker self flags'
      else ret ()
  end.

End EurekaConfig.

(** ** config/eureka_config.py, module level *)

Module eureka.

Definition get_eureka_config : M EurekaConfig :=
  cached ← gets _eureka_config;
  match cached with
  | Some c => ret c
  | None =>
      current_env ← getenv "FLASK_ENV" "development";
      c ← EurekaConfig.__init__ (Some current_env);
      _ ← modify (set_eureka_config (Some c));
      ret c
  end.

(** The three functions return [None] on every path. The instance is
    shared with the global, so what a method does to it is stored back. *)
Definition register_with_eureka : M unit :=
  try_
    (eureka_config ← get_eureka_config;
     success ← EurekaConfig.register_with_eureka eureka_config;
     if (success : bool) then
       c ← EurekaConfig.start_heartbeat eureka_config;
       modify (set_eureka_config (Some c))
     else ret ())
    (λ e, ret ()).

Definition deregister_from_eureka : M unit :=
  try_
    (eureka_config ← get_eureka_config;
     _ ← EurekaConfig.deregister_from_eureka eureka_config;
     ret ())
    (λ e, ret ()).

Definition stop_heartbeat : M unit :=
  try_
    (eureka_config ← get_eureka_config;
     c ← EurekaConfig.stop_heartbeat eureka_config;
     modify (set_eureka_config (Some c)))
    (λ e, ret ()).

End eureka.

(** ** app_config.py: the keys of [app.config] that the core reads.
    [None] is a key that is absent, which is what the defaults of
    [app.config.get] are for. *)

Record AppConfig := {
  SSL_ENABLED : option bool;
  SSL_CERT_PATH : option string;
  SSL_KEY_PATH : option string;
  CA_BUNDLE_PATH : option string;
  MUTUAL_TLS_ENABLED : option bool;
  HTTP_ENABLED : option bool
}.

(** ** config/security_config.py, SecurityConfig.create_ssl_context *)

Module SecurityConfig.

(** A file of the file system: whether the process may read it and
    whether it holds PEM material that OpenSSL accepts. *)
Record file := { readable : bool; pem : bool }.

Inductive verify_mode_t := CERT_NONE | CERT_OPTIONAL | CERT_REQUIRED.

Record SSLContext := {
  cert_chain : option (string * string);
  verify_locations : option string;
  check_hostname : bool;
  verify_mode : verify_mode_t
}.

Section Files.
Variable fs : gmap string file.

(** [os.path.exists(p)] *)
Definition exists_ (p : string) : bool := bool_decide (is_Some (fs !! p)).

(** OpenSSL reading a PEM file *)
Definition load_pem (p : string) : result unit :=
  match fs !! p with
  | None => Raise OSError
  | Some f =>
      if negb (readable f) then Raise OSError
      else if negb (pem f) then Raise SSLError
      else Return ()
  end.

(** [ssl.create_default_context(ssl.Purpose.CLIENT_AUTH)] *)
Definition create_default_context : SSLContext :=
  {| cert_chain := None; verify_locations := None;
     check_hostname := false; verify_mode := CERT_NONE |}.

Definition load_cert_chain (c : SSLContext) (cert key : string)
    : result SSLContext :=
  _ ← load_pem cert;
  _ ← load_pem key;
  Return {| cert_chain := Some (cert, key);
            verify_locations := verify_locations c;
            check_hostname := check_hostname c;
            verify_mode := verify_mode c |}.

Definition load_verify_locations (c : SSLContext) (ca : string)
    : result SSLContext :=
  _ ← load_pem ca;
  Return {| cert_chain := cert_chain c;
            verify_locations := Some ca;
            check_hostname := check_hostname c;
            verify_mode := verify_mode c |}.

Definition set_check_hostname (b : bool) (c : SSLContext) : SSLContext :=
  {| cert_chain := cert_chain c; verify_locations := verify_locations c;
     check_hostname := b; verify_mode := verify_mode c |}.

Definition set_verify_mode (m : verify_mode_t) (c : SSLContext) : SSLContext :=
  {| cert_chain := cert_chain c; verify_locations := verify_locations c;
     check_hostname := check_hostname c; verify_mode := m |}.

Definition create_ssl_context (app : AppConfig) : result (option SSLContext) :=
  if negb (default true (SSL_ENABLED app)) then Return None
  else
    let cert_path := SSL_CERT_PATH app in
    let key_path := SSL_KEY_PATH app in
    let ca_bundle_path := CA_BUNDLE_PATH app in
    let mutual_tls_enabled := default false (MUTUAL_TLS_ENABLED app) in
    if negb (truthy_str cert_path && truthy_str key_path
             && exists_ (fmt cert_path) && exists_ (fmt key_path))
    then Return None
    else
      ssl_context ← load_cert_chain create_default_context
                      (fmt cert_path) (fmt key_path);
      let ssl_context := set_check_hostname false ssl_context in
      if mutual_tls_enabled && truthy_str ca_bundle_path
         && exists_ (fmt ca_bundle_path)
      then
        let ssl_context := set_verify_mode CERT_REQUIRED ssl_context in
        ssl_context ← load_verify_locations ssl_context (fmt ca_bundle_path);
        Return (Some ssl_context)
      else
        let ssl_context := set_verify_mode CERT_NONE ssl_context in
        Return (Some ssl_context).
End Files.

End SecurityConfig.

(** ** config/http_server_config.py *)

Module http_server_config.

Import SecurityConfig.

(** An [SSLContext] object is true, [None] is false. *)
Definition truthy_ctx (c : option SSLContext) : bool :=
  match c with Some _ => true | None => false end.

Definition start_http_server_if_enabled (app : AppConfig) (port : Z)
    (ssl_context : option SSLContext) : M (option nat) :=
  let http_enabled := default false (HTTP_ENABLED app) in
  if http_enabled && negb (truthy_ctx ssl_context) then
    let http_port := port + 1000 in
    tid ← thread_start (run_http_server http_port);
    _ ← modify (set_http_server_thread (Some tid));
    ret (Some tid)
  else if http_enabled && truthy_ctx ssl_context then ret None
  else ret None.

Definition stop_http_server : M unit :=
  t ← gets _http_server_thread;
  match t with
  | Some tid =>
      running ← is_alive tid;
      if (running : bool) then
        _ ← emit EventSet;
        _ ← modify (set_shutdown_event true);
        _ ← join tid 5;
        modify (set_http_server_thread None)
      else ret ()
  | None => ret ()
  end.

Inductive thread_status := not_started | running | stopped.

Definition get_http_server_status : M (thread_status * bool) :=
  t ← gets _http_server_thread;
  match t with
  | None => ret (not_started, false)
  | Some tid =>
      a ← is_alive tid;
      ret (if (a : bool) then running else stopped, a)
  end.

End http_server_config.

(** ** controllers/health_controller.py *)

Module HealthController.

(** One sample of what psutil reports: the process's share of memory and
    the CPU load, in percent, or the exception the call raises. The
    percentages are finite floats, hence rationals, and comparing them
    is exact. *)
Record psutil := {
  memory_percent : result Q;          (* process.memory_percent() *)
  cpu_percent : result Q;             (* psutil.cpu_percent(interval=0.1) *)
  virtual_memory : result unit        (* psutil.virtual_memory(), whose value
                                         is dropped *)
}.

Definition Qlt_bool (x y : Q) : bool := negb (Qle_bool y x).

Definition memory_threshold : Q := 90.
Definition cpu_threshold : Q := 0.

Definition is_healthy (ps : psutil) : result bool :=
  try_except
    (memory ← memory_percent ps;
     cpu ← cpu_percent ps;
     let memory_healthy := Qlt_bool memory memory_threshold in
     let cpu_healthy := Qle_bool cpu_threshold cpu in
     Return (memory_healthy && cpu_healthy))
    (λ _, Return false).

(** The status document, without the clock readings (uptime, timestamp,
    response time). *)
Record health_status := {
  serviceId : string;
  status : string;
  metrics : option (Q * Q)          (* cpu, memory; [None]: the error metrics *)
}.

(** [own] is what psutil answers to [get_health_status] itself (the
    readings for its metrics and, last, the call that
    [measure_response_time] times), [probe] what it answers to
    [is_healthy] in between. *)
Definition get_health_status (service_id : string) (own probe : psutil)
    : result health_status :=
  try_except
    (memory ← memory_percent own;
     cpu ← cpu_percent own;
     healthy ← is_healthy probe;
     let status := if (healthy : bool) then "UP" else "DOWN" in
     _ ← virtual_memory own;          (* measure_response_time *)
     Return {| serviceId := service_id; status := status;
               metrics := Some (cpu, memory) |})
    (λ _, Return {| serviceId := service_id; status := "DOWN";
                    metrics := None |}).

(** [HealthResource.get]: the document and the HTTP status *)
Definition get (service_id : string) (own probe : psutil)
    : result (health_status * Z) :=
  health_status ← get_health_status service_id own probe;
  if String.eqb (status health_status) "UP"
  then Return (health_status, 200)
  else Return (health_status, 503).

End HealthController.

(** ** app.py *)

Module app.

Definition cleanup_resources : M unit :=
  _ ← http_server_config.stop_http_server;
  _ ← eureka.stop_heartbeat;
  eureka.deregister_from_eureka.

(** What [app.run] does once it is called: it returns when the server
    ends, it is interrupted from the keyboard, or it raises. *)
Inductive served :=
| Ended
| Interrupted                       (* KeyboardInterrupt *)
| Failed (e : exn).

(** The [__main__] block. The [try] gives whether a keyboard interrupt
    left it, for the clause that catches that; every other exception
    goes to the clause for [Exception]. *)
Definition main (app : AppConfig) (fs : gmap string SecurityConfig.file)
    (app_run : served) : M unit :=
  interrupted ← try_
    (_ ← eureka.register_with_eureka;
     p ← gets (λ w, environ w !! "PORT");
     port ← lift (match p with
                  | Some s => EurekaConfig.int s
                  | None => Return 5001
                  end);
     ssl_context ← lift (SecurityConfig.create_ssl_context fs app);
     http_thread ← http_server_config.start_http_server_if_enabled
                     app port ssl_context;
     _ ← emit (AppRun port (http_server_config.truthy_ctx ssl_context));
     match app_run with
     | Ended => ret false
     | Interrupted => ret true
     | Failed e => raise e
     end)
    (λ e, _ ← cleanup_resources; _ ← emit (Exit 1); ret false);
  if (interrupted : bool) then cleanup_resources else ret ().

End app.

(** ** Python's [in] as a relation *)

Module Containment.

Import KeycloakConfig.

Definition occurs_in (x s : string) : Prop :=
  ∃ pre post, s = pre +:+ x +:+ post.

(** [x in v] is true: [x] is an element of the list [v], a key of the
    dict [v] or a part of the string [v]. *)
Inductive holds (x : string) : pyval → Prop :=
| holds_list l : PStr x ∈ l → holds x (PList l)
| holds_dict d v : dict_lookup x d = Some v → holds x (PDict d)
| holds_str s : occurs_in x s → holds x (PStr s).

(** What [_check_realm_roles] and [_check_client_roles] test. *)
Definition realm_role_in (claims : pydict) : Prop :=
  ∃ realm_access roles,
    dict_lookup "realm_access" claims = Some (PDict realm_access)
    ∧ dict_lookup "roles" realm_access = Some roles
    ∧ holds required_realm_role roles.

Definition client_role_in (claims : pydict) : Prop :=
  ∃ resource_access client roles,
    dict_lookup "resource_access" claims = Some (PDict resource_access)
    ∧ dict_lookup required_client_id resource_access = Some (PDict client)
    ∧ dict_lookup "roles" client = Some roles
    ∧ holds required_client_role roles.

End Containment.

(** ** The role requirement in the words of the specification

    "realm roles: [claims.realm_access.roles] (a set of strings) must
    contain a fixed required realm role; client roles:
    [claims.resource_access.{clientId}.roles] must contain a fixed
    required client role". A claim path is followed through objects
    only, and a set of strings is an array with strings as elements. *)

Module RoleSpec.

Import KeycloakConfig.

(** The roles [roles] contain the role [x]. *)
Definition has_role (x : string) (roles : pyval) : Prop :=
  ∃ l, roles = PList l ∧ PStr x ∈ l.

Definition realm_role_present (claims : pydict) : Prop :=
  ∃ realm_access roles,
    dict_lookup "realm_access" claims = Some (PDict realm_access)
    ∧ dict_lookup "roles" realm_access = Some roles
    ∧ has_role required_realm_role roles.

Definition client_key_present (claims : pydict) : Prop :=
  ∃ resource_access client,
    dict_lookup "resource_access" claims = Some (PDict resource_access)
    ∧ dict_lookup required_client_id resource_access = Some client.

Definition client_role_present (claims : pydict) : Prop :=
  ∃ resource_access client roles,
    dict_lookup "resource_access" claims = Some (PDict resource_access)
    ∧ dict_lookup required_client_id resource_access = Some (PDict client)
    ∧ dict_lookup "roles" client = Some roles
    ∧ has_role required_client_role roles.

(** The two roles claims of [claims], where it has them, are arrays. *)
Definition role_arrays (claims : pydict) : Prop :=
  (∀ realm_access roles,
     dict_lookup "realm_access" claims = Some (PDict realm_access) →
     dict_lookup "roles" realm_access = Some roles →
     ∃ l, roles = PList l)
  ∧ (∀ resource_access client roles,
       dict_lookup "resource_access" claims = Some (PDict resource_access) →
       dict_lookup required_client_id resource_access = Some (PDict client) →
       dict_lookup "roles" client = Some roles →
       ∃ l, roles = PList l).

End RoleSpec.

(** ** The endpoints of the registry protocol

    [POST {registryBase}/apps/{appName}] registers;
    [PUT] and [DELETE {registryBase}/apps/{appName}/{instanceId}] renew
    and remove the instance. *)

Module Endpoints.

Definition registration_url (self : EurekaConfig) : string :=
  eureka_server_url self +:+ "apps/" +:+ fmt (app_name self).

Definition instance_url (self : EurekaConfig) : string :=
  eureka_server_url self +:+ "apps/" +:+ fmt (app_name self)
  +:+ "/" +:+ instance_id self.

End Endpoints.

Export Endpoints.

(** ** Notions of the lifecycle that the properties speak of *)

Module Lifecycle.

(** The heartbeat thread of [self] exists and is alive. *)
Definition heartbeat_up (self : EurekaConfig) (w : World) : bool :=
  match heartbeat_thread self with
  | Some tid => bool_decide (tid ∈ alive w)
  | None => false
  end.

(** What one round of the heartbeat loop does to the outside. *)
Definition heartbeat_round (self : EurekaConfig) : list event :=
  [UrlOpen PUT (instance_url self); Sleep (heartbeat_interval self)].

(** The number of rounds at whose head the flag was read as set, up to
    the first round that read it as cleared. *)
Fixpoint rounds (flags : list bool) : nat :=
  match flags with
  | true :: flags' => S (rounds flags')
  | _ => 0
  end.

(** The world once the registry has answered one request. *)
Definition answered (w : World) : World :=
  match registry w with
  | [] => w
  | _ :: rs => set_registry rs w
  end.

(** The world once a join on thread [tid] has returned: the thread has
    ended, unless it is one that outlives the timeout. *)
Definition joined (tid : nat) (w : World) : World :=
  if bool_decide (tid ∈ lingering w) then w
  else set_threads (alive w ∖ {[tid]}) (next_tid w) w.

(** The world that [stop_http_server] leaves when the listener thread
    [h] is up. *)
Definition listener_stopped (h : nat) (w : World) : World :=
  set_http_server_thread None (joined h (set_shutdown_event true w)).

(** The world that the module-level [stop_heartbeat] leaves when the
    heartbeat thread [b] of the client [c] is up. *)
Definition heartbeat_stopped (b : nat) (c : EurekaConfig) (w : World) : World :=
  set_eureka_config
    (Some (EurekaConfig.with_heartbeat false (Some b) c)) (joined b w).

Definition is_plaintext_start (e : event) : bool :=
  match e with
  | ThreadStart _ (run_http_server _) => true
  | _ => false
  end.

Definition is_tls_serve (e : event) : bool :=
  match e with
  | AppRun _ true => true
  | _ => false
  end.

(** An event that neither starts the plaintext listener nor serves the
    primary listener over TLS. *)
Definition no_listener (e : event) : Prop :=
  is_plaintext_start e = false ∧ is_tls_serve e = false.

(** Every event that [m] causes, in whatever world, satisfies [P]. *)
Definition emits (P : event → Prop) {A} (m : M A) : Prop :=
  ∀ w, Forall P (trace (m w)).




Definition is_heartbeat_start (e : event) : bool :=
  match e with
  | ThreadStart _ heartbeat_worker => true
  | _ => false
  end.

(** The number of heartbeat loops that a trace starts. *)
Definition heartbeat_starts (t : list event) : nat :=
  length (filter (λ e, is_heartbeat_start e = true) t).

(** A fully running instance: the plaintext listener thread [h] is up,
    the heartbeat thread [b] of the registered client [c] is up. *)
Definition fully_running (w : World) (h b : nat) (c : EurekaConfig) : Prop :=
  _http_server_thread w = Some h
  ∧ bool_decide (h ∈ alive w) = true
  ∧ _eureka_config w = Some c
  ∧ truthy_str (app_name c) = true
  ∧ heartbeat_thread c = Some b
  ∧ heartbeat_running c = true
  ∧ bool_decide (b ∈ alive w) = true
  ∧ h ≠ b.

End Lifecycle.

Export Lifecycle.

(** ** Sample configurations and worlds *)

Module Samples.

(** A process environment that names the application, a registry that
    accepts the registration and nothing started yet. *)
Definition fresh : World :=
  {| environ := {[ "APP_NAME" := "counter-app" ]};
     route_ip := Some "10.0.0.5"; host_ip := None;
     uuid4 := λ n, "uuid-" +:+ pretty n; uuids_drawn := 0;
     registry := [Response 204 (Utf8 EmptyString)];
     alive := ∅; lingering := ∅; next_tid := 0;
     _eureka_config := None; _http_server_thread := None;
     _shutdown_event := false |}.


(** The instance that [EurekaConfig()] builds in [fresh]. *)
Definition client : EurekaConfig :=
  {| environment := "development"; eureka_server := "localhost";
     eureka_port := "8761"; eureka_path := "/eureka/eureka/";
     eureka_server_url := "https://localhost:8761/eureka/eureka/";
     app_name := Some "counter-app";
     instance_port := 5001; instance_host := "localhost";
     instance_ip := "10.0.0.5"; instance_id := "counter-app:uuid-0";
     secure_port_enabled := true; non_secure_port_enabled := false;
     heartbeat_interval := 30;
     heartbeat_thread := None; heartbeat_running := false;
     health_check_url := "https://localhost:5001/health";
     status_page_url := "https://localhost:5001/" |}.

(** [fresh] with a registry that answers 500 with a body that is not
    UTF-8 (an error page in Latin-1, say). *)
Definition failing : World :=
  set_registry [ErrorStatus 500 NotUtf8] fresh.

(** [client] once its heartbeat runs on thread 0. *)
Definition beating : EurekaConfig :=
  EurekaConfig.with_heartbeat true (Some 0%nat) client.

(** A fully running instance: heartbeat on thread 0, plaintext listener
    on thread 1, and a registry that will answer 200. *)
Definition serving : World :=
  {| environ := {[ "APP_NAME" := "counter-app" ]};
     route_ip := Some "10.0.0.5"; host_ip := None;
     uuid4 := λ n, "uuid-" +:+ pretty n; uuids_drawn := 1;
     registry := [Response 200 (Utf8 EmptyString)];
     alive := {[ 0%nat; 1%nat ]}; lingering := {[ 1%nat ]}; next_tid := 2;
     _eureka_config := Some beating; _http_server_thread := Some 1%nat;
     _shutdown_event := false |}.

(** Claims with the given realm roles and, under the given client id,
    the given client roles. *)
Definition claims_with (realm : list string) (client : string)
    (roles : list string) : pydict :=
  [("sub", PStr "alice");
   ("realm_access", PDict [("roles", PList (PStr <$> realm))]);
   ("resource_access",
    PDict [(client, PDict [("roles", PList (PStr <$> roles))])])].

(** A decoder that knows three tokens and rejects the rest. *)
Definition decoder (token : string) : result pydict :=
  if String.eqb token "admin" then
    Return (claims_with ["offline_access"; "gateway_admin_realm"]
              "linqra-gateway-client" ["gateway_admin"])
  else if String.eqb token "other-realm" then
    Return (claims_with ["x"] "linqra-gateway-client" ["gateway_admin"])
  else if String.eqb token "other-client" then
    Return (claims_with ["gateway_admin_realm"] "account" ["gateway_admin"])
  else Raise DecodeError.

(** A configuration with TLS and mutual TLS switched on. *)
Definition tls_app : AppConfig :=
  {| SSL_ENABLED := Some true;
     SSL_CERT_PATH := Some "keys/certs/server-cert.pem";
     SSL_KEY_PATH := Some "keys/certs/server-key.pem";
     CA_BUNDLE_PATH := Some "keys/certs/ca-bundle.pem";
     MUTUAL_TLS_ENABLED := Some true;
     HTTP_ENABLED := Some false |}.

Definition good_file : SecurityConfig.file :=
  {| SecurityConfig.readable := true; SecurityConfig.pem := true |}.

(** A disk with certificate, key and CA bundle in order. *)
Definition disk : gmap string SecurityConfig.file :=
  {[ "keys/certs/server-cert.pem" := good_file;
     "keys/certs/server-key.pem" := good_file;
     "keys/certs/ca-bundle.pem" := good_file ]}.

(** The same disk with a CA bundle that the process may not read. *)
Definition disk_locked_ca : gmap string SecurityConfig.file :=
  {[ "keys/certs/server-cert.pem" := good_file;
     "keys/certs/server-key.pem" := good_file;
     "keys/certs/ca-bundle.pem" :=
       {| SecurityConfig.readable := false; SecurityConfig.pem := true |} ]}.

(** A psutil sample with the process at 90 percent of memory. *)
Definition at_threshold : HealthController.psutil :=
  {| HealthController.memory_percent := Return 90%Q;
     HealthController.cpu_percent := Return 5%Q;
     HealthController.virtual_memory := Return () |}.

(** A psutil sample with the process at 42.5 percent of memory. *)
Definition at_ease : HealthController.psutil :=
  {| HealthController.memory_percent := Return (85 # 2)%Q;
     HealthController.cpu_percent := Return 5%Q;
     HealthController.virtual_memory := Return () |}.

End Samples.

(** ** config/keycloak_config.py: the bearer token and the decorator *)

Module KeycloakGuard.

(** [s[n:]] *)
Fixpoint str_drop (n : nat) (s : string) : string :=
  match n, s with
  | O, _ => s
  | S n', String _ s' => str_drop n' s'
  | S _, EmptyString => EmptyString
  end.

(** [extract_token_from_header], given what
    [request.headers.get('Authorization')] returns. *)
Definition extract_token_from_header (auth_header : option string)
    : option string :=
  if truthy_str auth_header && String.prefix "Bearer " (fmt auth_header)
  then Some (str_drop 7 (fmt auth_header))
  else None.

(** What a guarded endpoint answers: a refusal with its status code and
    error text, or what the endpoint itself returns. *)
Inductive answer (A : Type) :=
| Refused (code : Z) (error : string)
| Served (a : A).
Arguments Refused {A} code error.
Arguments Served {A} a.

Section Decode.
Variable jwt_decode : string → result pydict.

(** [require_keycloak_roles(f)], applied to a request: [f] is what the
    call of the endpoint gives if it is made. *)
Definition require_keycloak_roles {A} (f : result A)
    (auth_header : option string) : result (answer A) :=
  let token := extract_token_from_header auth_header in
  if negb (truthy_str token) then
    Return (Refused 401 "No JWT token provided")
  else
    valid ← KeycloakConfig.validate_jwt_roles jwt_decode (fmt token);
    if negb valid then Return (Refused 403 "Insufficient permissions")
    else try_except (a ← f; Return (Served a)) (λ e, Raise e).

Definition validate_keycloak_jwt (auth_header : option string) : result bool :=
  let token := extract_token_from_header auth_header in
  if negb (truthy_str token) then Return false
  else KeycloakConfig.validate_jwt_roles jwt_decode (fmt token).

(** [SecurityConfig._has_jwt_token] (config/security_config.py) *)
Definition _has_jwt_token (auth_header : option string) : result bool :=
  if truthy_str auth_header && String.prefix "Bearer " (fmt auth_header)
  then KeycloakConfig.validate_jwt_roles jwt_decode
         (str_drop 7 (fmt auth_header))
  else Return false.

End Decode.

End KeycloakGuard.

(** ** config/security_config.py: the validator that verifies signatures *)

Module StrictValidator.

(** The attributes that [SecurityConfig.__init__] reads from the
    environment. *)
Record settings := {
  keycloak_gateway_url : string;
  keycloak_gateway_port : string;
  jwt_issuer_uri : string;
  jwt_jwk_set_uri : string;
  allowed_issuers : list string
}.

Definition __init__ (environ : gmap string string) : settings :=
  let url := default "localhost" (environ !! "KEYCLOAK_GATEWAY_URL") in
  let port := default "8281" (environ !! "KEYCLOAK_GATEWAY_PORT") in
  let realm := "http://" +:+ url +:+ ":" +:+ port +:+ "/realms/Linqra" in
  {| keycloak_gateway_url := url;
     keycloak_gateway_port := port;
     jwt_issuer_uri := default realm (environ !! "JWT_ISSUER_URI");
     jwt_jwk_set_uri :=
       default (realm +:+ "/protocol/openid-connect/certs")
         (environ !! "JWT_JWK_SET_URI");
     allowed_issuers := [realm; "http://localhost:8281/realms/Linqra"] |}.

(** [for x in v]: the items that iterating over [v] yields. *)
Definition iter (v : pyval) : result (list pyval) :=
  match v with
  | PList l => Return l
  | PDict d => Return (PStr <$> d.*1)
  | PStr s => Return ((λ c, PStr (String c EmptyString)) <$> list_ascii_of_string s)
  | PNone | PBool _ | PNum _ => Raise TypeError
  end.

(** The loop over the key set: the first item whose ['kid'] equals
    [kid]; an item that is no object raises on its [get]. *)
Fixpoint find_key (kid : string) (items : list pyval) : result (option pydict) :=
  match items with
  | [] => Return None
  | jwk :: rest =>
      k ← get jwk "kid" PNone;
      if is_str kid k then
        match jwk with
        | PDict d => Return (Some d)
        | _ => Raise AttributeError
        end
      else find_key kid rest
  end.

(** Truth value of a dict *)
Definition truthy_dict (d : pydict) : bool :=
  match d with [] => false | _ => true end.

Section Oracles.
(** [jwt.get_unverified_header(token).get('kid')]: PyJWT accepts a key id
    only when it is a string, so it is given as one; [None] when the
    header has none. *)
Variable unverified_kid : string → result (option string).
(** [requests.get(jwk_set_uri, timeout=10)], [raise_for_status()] and
    [json()]: the key set document, or what one of the three raises. *)
Variable fetch_jwk_set : result pyval.
(** [jwt.decode(token, key, algorithms=['RS256'], ...)] with signature,
    expiry and issuer verification on. *)
Variable jwt_decode_verified : string → pydict → result pydict.

Definition validate_jwt_token (self : settings) (token : string) : result bool :=
  try_except
    (kid ← unverified_kid token;
     if negb (truthy_str kid) then Return false
     else
       jwk_set ← fetch_jwk_set;
       keys ← get jwk_set "keys" (PList []);
       items ← iter keys;
       key ← find_key (fmt kid) items;
       match key with
       | None => Return false
       | Some key =>
           if negb (truthy_dict key) then Return false
           else
             decoded ← jwt_decode_verified token key;
             let issuer := dict_get decoded "iss" PNone in
             if negb (existsb (λ a, is_str a issuer) (allowed_issuers self))
             then Return false
             else
               let scope := dict_get decoded "scope" (PStr EmptyString) in
               scoped ← contains "counter-app.read" scope;
               if negb scoped then Return false else Return true
       end)
    (λ _, Return false).

End Oracles.

End StrictValidator.

(** ** controllers/health_controller.py: format_uptime *)

Module Uptime.

(** A [timedelta] as Python keeps it: any number of days, the seconds
    within the day and the microseconds within the second. *)
Record timedelta := { days : Z; seconds : Z; microseconds : Z }.

(** [format_uptime(uptime_seconds)], given what its first line,
    [timedelta(seconds=uptime_seconds)], makes of the float: the
    duration rounded to microseconds, or the exception it raises for a
    float beyond its range. *)
Definition format_uptime (uptime : result timedelta) : result string :=
  uptime ← uptime;
  let days := days uptime in
  let hours := seconds uptime / 3600 in
  let minutes := (seconds uptime mod 3600) / 60 in
  let seconds := seconds uptime mod 60 in
  Return (pretty days +:+ "d " +:+ pretty hours +:+ "h " +:+ pretty minutes
          +:+ "m " +:+ pretty seconds +:+ "s").

End Uptime.

(** ** models/counter_model.py and services/counter_service.py

    The clock is given from outside: [now] is the ISO text of what
    [datetime.now()] returns at the call. *)

Module CounterService.

Record Counter := {
  value : Z;
  last_updated : string;
  description : option string
}.

(** [Counter.create] *)
Definition create (now : string) (value : Z) (description : option string)
    : Counter :=
  {| value := value; last_updated := now; description := description |}.

(** [Counter.to_dict] *)
Definition to_dict (c : Counter) : pydict :=
  [("value", PNum (value c));
   ("last_updated", PStr (last_updated c));
   ("description", match description c with
                   | Some d => PStr d
                   | None => PNone
                   end)].

(** [CounterService()]: the state of the service is its counter. *)
Definition __init__ (now : string) : Counter :=
  create now 0 (Some "Main counter").

Definition get_count (c : Counter) : Z := value c.

(** Each of the three returns the value and the counter it leaves. *)
Definition increment_count (now : string) (c : Counter) : Z * Counter :=
  let c' := {| value := value c + 1; last_updated := now;
               description := description c |} in
  (value c', c').

Definition reset_count (now : string) (c : Counter) : Z * Counter :=
  let c' := {| value := 0; last_updated := now;
               description := description c |} in
  (value c', c').

Definition set_count (now : string) (v : Z) (c : Counter) : Z * Counter :=
  let c' := {| value := v; last_updated := now;
               description := description c |} in
  (value c', c').

Definition get_counter_dict (c : Counter) : pydict := to_dict c.

End CounterService.

(** ** controllers/counter_controller.py *)

Module CounterController.

Import CounterService.

(** [CountResource.get] *)
Definition CountResource_get (c : Counter) : pydict :=
  let counter_data := get_counter_dict c in
  [("count", PNum (get_count c));
   ("status", PStr "success");
   ("metadata", PDict counter_data)].

(** [IncrementResource.get]: the answer and the counter it leaves *)
Definition IncrementResource_get (now : string) (c : Counter)
    : pydict * Counter :=
  let (count, c') := increment_count now c in
  let counter_data := get_counter_dict c' in
  ([("count", PNum count);
    ("status", PStr "incremented");
    ("metadata", PDict counter_data)], c').

(** [ResetResource.get] *)
Definition ResetResource_get (now : string) (c : Counter) : pydict * Counter :=
  let (count, c') := reset_count now c in
  let counter_data := get_counter_dict c' in
  ([("count", PNum count);
    ("status", PStr "reset");
    ("metadata", PDict counter_data)], c').

Section Decode.
Variable jwt_decode : string → result pydict.

(** [ProtectedResource.get]: [api.abort(401, ...)] ends the request with
    that status. *)
Definition ProtectedResource_get (auth_header : option string) (c : Counter)
    : result (KeycloakGuard.answer pydict) :=
  allowed ← KeycloakGuard._has_jwt_token jwt_decode auth_header;
  if negb allowed then Return (KeycloakGuard.Refused 401 "JWT token required")
  else
    let counter_data := get_counter_dict c in
    Return (KeycloakGuard.Served
              [("count", PNum (get_count c));
               ("status", PStr "success");
               ("metadata", PDict counter_data);
               ("auth_type", PStr "JWT with Keycloak roles")]).

End Decode.

End CounterController.

(** ** app_config.py: the configuration classes

    The three paths are what the class computes from its own location
    when it is imported. *)

Module app_config.

Section Paths.
Variables (cert_path key_path ca_path : string).

(** [os.environ.get(k, dflt).lower() == 'true'] *)
Definition flag (environ : gmap string string) (k dflt : string) : bool :=
  String.eqb (EurekaConfig.lower (default dflt (environ !! k))) "true".

Definition Config (environ : gmap string string) : AppConfig :=
  {| SSL_ENABLED := Some (flag environ "SSL_ENABLED" "true");
     SSL_CERT_PATH := Some cert_path;
     SSL_KEY_PATH := Some key_path;
     CA_BUNDLE_PATH := Some ca_path;
     MUTUAL_TLS_ENABLED := Some (flag environ "MUTUAL_TLS_ENABLED" "false");
     HTTP_ENABLED := Some (flag environ "HTTP_ENABLED" "false") |}.

Definition DevelopmentConfig (environ : gmap string string) : AppConfig :=
  {| SSL_ENABLED := SSL_ENABLED (Config environ);
     SSL_CERT_PATH := SSL_CERT_PATH (Config environ);
     SSL_KEY_PATH := SSL_KEY_PATH (Config environ);
     CA_BUNDLE_PATH := CA_BUNDLE_PATH (Config environ);
     MUTUAL_TLS_ENABLED := MUTUAL_TLS_ENABLED (Config environ);
     HTTP_ENABLED := Some true |}.

Definition ProductionConfig (environ : gmap string string) : AppConfig :=
  Config environ.

Definition TestingConfig (environ : gmap string string) : AppConfig :=
  Config environ.

(** [config[config_name]] *)
Definition config (environ : gmap string string) (config_name : string)
    : result AppConfig :=
  if String.eqb config_name "development" then Return (DevelopmentConfig environ)
  else if String.eqb config_name "production" then Return (ProductionConfig environ)
  else if String.eqb config_name "testing" then Return (TestingConfig environ)
  else if String.eqb config_name "default" then Return (DevelopmentConfig environ)
  else Raise KeyError.

End Paths.

End app_config.

(** ** app.py: the handlers of termination *)

Module app_handlers.

(** [signal_handler(sig, frame)] up to its [sys.exit(0)] *)
Definition signal_handler : M unit :=
  _ ← app.cleanup_resources;
  emit (Exit 0).

(** [shutdown_handler()], which [atexit] runs when the interpreter
    leaves *)
Definition shutdown_handler : M unit := app.cleanup_resources.

(** A termination signal: the signal handler, and, as its [sys.exit]
    makes the interpreter leave, the handler registered with [atexit]. *)
Definition terminate : M unit :=
  _ ← signal_handler;
  shutdown_handler.

End app_handlers.

(** ** More notions and samples for the properties *)

Module Scenes.

Definition is_delete (e : event) : bool :=
  match e with
  | UrlOpen DELETE _ => true
  | _ => false
  end.

Definition is_serve (e : event) : bool :=
  match e with
  | AppRun _ _ => true
  | _ => false
  end.

Definition is_exit (e : event) : bool :=
  match e with
  | Exit _ => true
  | _ => false
  end.

(** An event of stopping: a signal, a join, a cleared flag or a
    removal request. *)
Definition is_stop_event (e : event) : Prop :=
  match e with
  | EventSet | ThreadJoin _ _ | FlagWrite false | UrlOpen DELETE _ => True
  | _ => False
  end.


(** The client that [EurekaConfig()] builds in [Samples.fresh] after
    [Samples.client]. *)
Definition second_client : EurekaConfig :=
  {| environment := "development"; eureka_server := "localhost";
     eureka_port := "8761"; eureka_path := "/eureka/eureka/";
     eureka_server_url := "https://localhost:8761/eureka/eureka/";
     app_name := Some "counter-app";
     instance_port := 5001; instance_host := "localhost";
     instance_ip := "10.0.0.5"; instance_id := "counter-app:uuid-1";
     secure_port_enabled := true; non_secure_port_enabled := false;
     heartbeat_interval := 30;
     heartbeat_thread := None; heartbeat_running := false;
     health_check_url := "https://localhost:5001/health";
     status_page_url := "https://localhost:5001/" |}.








(** [int(os.environ.get('PORT', 5001))] in the world [w] *)
Definition port_of (w : World) : result Z :=
  match environ w !! "PORT" with
  | Some s => EurekaConfig.int s
  | None => Return 5001
  end.

(** The counter after one increment at each of the given clock readings. *)
Definition increments (clock : list string) (c : CounterService.Counter)
    : CounterService.Counter :=
  foldl (λ c now, (CounterService.increment_count now c).2) c clock.

(** A key set with two keys, and the header of a token signed with the
    second. *)
Definition key_set : pyval :=
  PDict [("keys", PList [PDict [("kid", PStr "k1"); ("kty", PStr "RSA")];
                         PDict [("kid", PStr "k2"); ("kty", PStr "RSA")]])].

Definition kid_of (token : string) : result (option string) :=
  if String.eqb token "signed" then Return (Some "k2")
  else if String.eqb token "anonymous" then Return None
  else Raise DecodeError.

(** [jwt.decode(token, key, algorithms=['RS256'], ...)] for a [key] that
    is a dict: PyJWT expects PEM text or a key object and raises. *)
Definition refusing (token : string) (key : pydict) : result pydict :=
  Raise TypeError.

(** Claims whose realm roles are one string, not an array, with the
    name of the required realm role inside a longer word; and a decoder
    that reads them off the token [crafted]. *)
Definition crafted : pydict :=
  [("sub", PStr "mallory");
   ("realm_access", PDict [("roles", PStr "not_gateway_admin_realm_at_all")]);
   ("resource_access",
    PDict [("linqra-gateway-client",
            PDict [("roles", PList [PStr "gateway_admin"])])])].

Definition forging (token : string) : result pydict :=
  if String.eqb token "crafted" then Return crafted else Raise DecodeError.

End Scenes.

(** * Properties *)

(** ** JWT role validation *)

Section KeycloakFacts.

Import KeycloakConfig Containment RoleSpec.

Lemma prefix_app (x s : string) :
  String.prefix x s = true ↔ ∃ post, s = x +:+ post.
Proof.
  revert s. induction x as [|c x IH]; intros s.
  - split; [intros _; exists s; reflexivity|]. destruct s; reflexivity.
  - destruct s as [|c' s]; simpl.
    + split; [discriminate | intros [post H]; discriminate].
    + destruct (Ascii.ascii_dec c c') as [->|Hne].
      * rewrite IH. split; intros [post H]; exists post; [by rewrite H | by injection H].
      * split; [discriminate|]. intros [post H]. injection H as -> _. congruence.
Qed.

Lemma str_contains_occurs (x s : string) :
  str_contains x s = true ↔ occurs_in x s.
Proof.
  induction s as [|c s IH].
  - cbn [str_contains]. rewrite orb_false_r, prefix_app. split.
    + intros [post H]. exists EmptyString, post. exact H.
    + intros [pre [post H]]. destruct pre; [by exists post | discriminate].
  - cbn [str_contains]. rewrite orb_true_iff, prefix_app, IH. split.
    + intros [[post H] | [pre [post H]]].
      * exists EmptyString, post. exact H.
      * exists (String c pre), post. simpl. by rewrite H.
    + intros [pre [post H]]. destruct pre as [|c' pre].
      * left. exists post. exact H.
      * right. exists pre, post. simpl in H. by injection H.
Qed.

Lemma is_str_true (x : string) (v : pyval) : is_str x v = true ↔ v = PStr x.
Proof.
  destruct v; simpl; try (split; [discriminate | intros H; discriminate]).
  rewrite String.eqb_eq. split; [by intros -> | by intros [= ->]].
Qed.

(** The [in] operator returns [True] exactly on the values that contain
    the name. *)
Lemma contains_holds (x : string) (v : pyval) :
  contains x v = Return true ↔ holds x v.
Proof.
  destruct v as [| b | z | s | l | d]; simpl;
    try (split; [discriminate | intros H; inversion H]).
  - split.
    + intros [= H]. constructor. by apply str_contains_occurs.
    + intros H. inversion H; subst. f_equal. by apply str_contains_occurs.
  - split.
    + intros [= H]. constructor. apply existsb_exists in H as [y [Hy Hs]].
      apply is_str_true in Hs as ->. by apply list_elem_of_In.
    + intros H. inversion H as [l' Hin| |]; subst. f_equal.
      apply existsb_exists. exists (PStr x). split.
      * by apply list_elem_of_In.
      * by apply is_str_true.
  - split.
    + intros [= H]. apply bool_decide_eq_true in H as [v Hv]. by econstructor.
    + intros H. inversion H; subst. f_equal. apply bool_decide_eq_true. eauto.
Qed.

Lemma holds_array (x : string) (l : list pyval) :
  holds x (PList l) ↔ PStr x ∈ l.
Proof. split; [intros H; by inversion H | by constructor]. Qed.

Lemma _check_realm_roles_total (claims : pydict) :
  ∃ b, _check_realm_roles claims = Return b.
Proof.
  unfold _check_realm_roles, try_except.
  destruct (_ ≫= _); eauto.
Qed.

Lemma _check_client_roles_total (claims : pydict) :
  ∃ b, _check_client_roles claims = Return b.
Proof.
  unfold _check_client_roles, try_except.
  destruct (_ ≫= _); eauto.
Qed.

Lemma _check_realm_roles_in (claims : pydict) :
  _check_realm_roles claims = Return true ↔ realm_role_in claims.
Proof.
  unfold _check_realm_roles, realm_role_in, try_except, dict_get.
  destruct (dict_lookup "realm_access" claims) as [ra|] eqn:Hra; simpl.
  - destruct ra as [| b | z | s | l | d]; simpl;
      try (split; [discriminate | intros (? & ? & [= ?] & _)]).
    unfold dict_get.
    destruct (dict_lookup "roles" d) as [roles|] eqn:Hroles; simpl.
    + destruct (contains required_realm_role roles) as [b|e] eqn:Hc.
      * split.
        -- intros [= ->]. exists d, roles. by rewrite <- contains_holds.
        -- intros (d' & roles' & [= <-] & Hr & Hh).
           rewrite Hroles in Hr. injection Hr as <-.
           apply contains_holds in Hh. congruence.
      * split; [discriminate|].
        intros (d' & roles' & [= <-] & Hr & Hh).
        rewrite Hroles in Hr. injection Hr as <-.
        apply contains_holds in Hh. congruence.
    + split; [discriminate|]. intros (d' & roles' & [= <-] & Hr & _).
      congruence.
  - split; [discriminate | intros (? & ? & [= ] & _)].
Qed.

Lemma _check_client_roles_in (claims : pydict) :
  _check_client_roles claims = Return true ↔ client_role_in claims.
Proof.
  unfold _check_client_roles, client_role_in, try_except, dict_get.
  destruct (dict_lookup "resource_access" claims) as [ra|] eqn:Hra; simpl.
  - destruct ra as [| b | z | s | l | d]; simpl;
      try (split; [discriminate | intros (? & ? & ? & [= ?] & _)]).
    + destruct (str_contains required_client_id s); simpl;
        (split; [discriminate | intros (? & ? & ? & [= ?] & _)]).
    + destruct (existsb (is_str required_client_id) l); simpl;
        (split; [discriminate | intros (? & ? & ? & [= ?] & _)]).
    + destruct (dict_lookup required_client_id d) as [client|] eqn:Hcl.
      * rewrite bool_decide_eq_true_2 by eauto. simpl.
        destruct client as [| b | z | s | l | c]; simpl;
          try (split; [discriminate
                      | intros (? & ? & ? & [= <-] & Hc & _); congruence]).
        unfold dict_get.
        destruct (dict_lookup "roles" c) as [roles|] eqn:Hroles; simpl.
        -- destruct (contains required_client_role roles) as [b|e] eqn:Hc.
           ++ split.
              ** intros [= ->]. exists d, c, roles.
                 by rewrite <- contains_holds.
              ** intros (d' & c' & roles' & [= <-] & Hc' & Hr & Hh).
                 rewrite Hcl in Hc'. injection Hc' as <-.
                 rewrite Hroles in Hr. injection Hr as <-.
                 apply contains_holds in Hh. congruence.
           ++ split; [discriminate|].
              intros (d' & c' & roles' & [= <-] & Hc' & Hr & Hh).
              rewrite Hcl in Hc'. injection Hc' as <-.
              rewrite Hroles in Hr. injection Hr as <-.
              apply contains_holds in Hh. congruence.
        -- split; [discriminate|].
           intros (d' & c' & roles' & [= <-] & Hc' & Hr & _).
           rewrite Hcl in Hc'. injection Hc' as <-. congruence.
      * rewrite bool_decide_eq_false_2 by (intros [? ?]; congruence). simpl.
        split; [discriminate|].
        intros (d' & c' & roles' & [= <-] & Hc' & _). congruence.
  - split; [discriminate | intros (? & ? & ? & [= ] & _)].
Qed.

Lemma client_role_needs_key (claims : pydict) :
  client_role_in claims → client_key_present claims.
Proof. intros (ra & c & roles & H1 & H2 & _). by exists ra, (PDict c). Qed.

(** An array that contains the role passes the test of [in]; on arrays
    the test of [in] is containment. *)
Lemma has_role_holds (x : string) (roles : pyval) :
  has_role x roles → holds x roles.
Proof. intros (l & -> & H). by constructor. Qed.

Lemma holds_has_role (x : string) (roles : pyval) :
  (∃ l, roles = PList l) → holds x roles → has_role x roles.
Proof. intros [l ->] H. exists l. split; [done|]. by apply holds_array. Qed.

Lemma realm_role_present_in (claims : pydict) :
  realm_role_present claims → realm_role_in claims.
Proof.
  intros (ra & roles & H1 & H2 & H3). exists ra, roles.
  repeat split; try done. by apply has_role_holds.
Qed.

Lemma client_role_present_in (claims : pydict) :
  client_role_present claims → client_role_in claims.
Proof.
  intros (ra & c & roles & H1 & H2 & H3 & H4). exists ra, c, roles.
  repeat split; try done. by apply has_role_holds.
Qed.

Lemma role_arrays_present (claims : pydict) :
  role_arrays claims →
  realm_role_in claims → client_role_in claims →
  realm_role_present claims ∧ client_role_present claims.
Proof.
  intros [Hr Hc] (ra & roles & H1 & H2 & H3) (ra' & c & roles' & H4 & H5 & H6 & H7).
  split.
  - exists ra, roles. repeat split; try done.
    apply holds_has_role; [by eapply Hr|done].
  - exists ra', c, roles'. repeat split; try done.
    apply holds_has_role; [by eapply Hc|done].
Qed.

Variable jwt_decode : string → result pydict.

Lemma validate_jwt_roles_total (token : string) :
  ∃ b, validate_jwt_roles jwt_decode token = Return b.
Proof.
  unfold validate_jwt_roles, try_except.
  destruct (_ ≫= _); eauto.
Qed.

Lemma validate_jwt_roles_decoded (token : string) (claims : pydict) :
  jwt_decode token = Return claims →
  ∃ r c, _check_realm_roles claims = Return r
         ∧ _check_client_roles claims = Return c
         ∧ validate_jwt_roles jwt_decode token = Return (r && c).
Proof.
  intros Hd.
  destruct (_check_realm_roles_total claims) as [r Hr].
  destruct (_check_client_roles_total claims) as [c Hc].
  exists r, c. split; [done|]. split; [done|].
  unfold validate_jwt_roles. rewrite Hd. simpl. rewrite Hr. simpl.
  rewrite Hc. reflexivity.
Qed.

(** What [validate_jwt_roles] returns, in terms of what its two checks
    test. *)
Lemma validate_jwt_roles_in (token : string) :
  validate_jwt_roles jwt_decode token = Return true
  ↔ ∃ claims, jwt_decode token = Return claims
              ∧ realm_role_in claims ∧ client_role_in claims.
Proof.
  destruct (jwt_decode token) as [claims|e] eqn:Hd.
  - destruct (validate_jwt_roles_decoded token claims Hd)
      as (r & c & Hr & Hc & ->).
    split.
    + intros [= H]. apply andb_prop in H as [-> ->]. exists claims.
      split; [done|].
      split; [by apply _check_realm_roles_in
             | by apply _check_client_roles_in].
    + intros (claims' & [= <-] & Hr' & Hc').
      apply _check_realm_roles_in in Hr'.
      apply _check_client_roles_in in Hc'.
      rewrite Hr in Hr'. rewrite Hc in Hc'.
      injection Hr' as ->. injection Hc' as ->. reflexivity.
  - unfold validate_jwt_roles. rewrite Hd. simpl.
    split; [discriminate | intros (? & [= ] & _)].
Qed.

(** C2. [validate_jwt_roles] never raises, returns [False] when decoding
    raises and when the client id is no key of [resource_access], and
    returns [True] for every token whose claims contain the required
    realm role in [realm_access.roles] and the required client role in
    [resource_access.{client id}.roles]. The converse holds for the
    tokens whose two roles claims are arrays, and fails beyond them:
    the token [crafted], whose realm roles are the single string
    [not_gateway_admin_realm_at_all], does not contain the realm role
    and is accepted, because [in] on a string tests for a part of it. *)
Theorem role_name_inside_text_is_accepted (token : string) :
  ((∃ claims, jwt_decode token = Return claims
              ∧ realm_role_present claims ∧ client_role_present claims)
   → validate_jwt_roles jwt_decode token = Return true)
  ∧ (∀ claims, jwt_decode token = Return claims
               → role_arrays claims
               → validate_jwt_roles jwt_decode token = Return true
               → realm_role_present claims ∧ client_role_present claims)
  ∧ (∀ claims, jwt_decode token = Return claims
               → ¬ client_key_present claims
               → validate_jwt_roles jwt_decode token = Return false)
  ∧ (∀ e, jwt_decode token = Raise e
          → validate_jwt_roles jwt_decode token = Return false)
  ∧ (∃ b, validate_jwt_roles jwt_decode token = Return b)
  ∧ (Scenes.forging "crafted" = Return Scenes.crafted
     ∧ (∃ realm_access,
          dict_lookup "realm_access" Scenes.crafted = Some (PDict realm_access)
          ∧ dict_lookup "roles" realm_access
            = Some (PStr "not_gateway_admin_realm_at_all"))
     ∧ ¬ realm_role_present Scenes.crafted
     ∧ client_role_present Scenes.crafted
     ∧ validate_jwt_roles Scenes.forging "crafted" = Return true).
Proof.
  split; [|split; [|split; [|split; [|split]]]].
  - intros (claims & Hd & Hr & Hc). apply validate_jwt_roles_in.
    exists claims. split; [done|].
    split; [by apply realm_role_present_in|by apply client_role_present_in].
  - intros claims Hd Ha Hv. apply validate_jwt_roles_in in Hv.
    destruct Hv as (claims' & Hd' & Hr & Hc).
    rewrite Hd in Hd'. injection Hd' as <-. by apply role_arrays_present.
  - intros claims Hd Hk.
    destruct (validate_jwt_roles_decoded token claims Hd)
      as (r & c & Hr & Hc & ->).
    destruct c; [|by rewrite andb_false_r].
    exfalso. apply Hk, client_role_needs_key.
    by apply _check_client_roles_in.
  - intros e Hd. unfold validate_jwt_roles. by rewrite Hd.
  - apply validate_jwt_roles_total.
  - split; [reflexivity|]. split; [by eexists|]. split; [|split].
    + intros (ra & roles & H1 & H2 & l & H3 & _).
      cbn in H1. injection H1 as <-. cbn in H2. injection H2 as <-.
      discriminate H3.
    + eexists _, _, _. repeat split; try reflexivity.
      eexists. split; [reflexivity|]. by apply list_elem_of_singleton.
    + reflexivity.
Qed.

End KeycloakFacts.

Example validate_other_realm :
  KeycloakConfig.validate_jwt_roles Samples.decoder "other-realm" = Return false.
Proof. reflexivity. Qed.

Example validate_other_client :
  KeycloakConfig.validate_jwt_roles Samples.decoder "other-client" = Return false.
Proof. reflexivity. Qed.

Example validate_admin :
  KeycloakConfig.validate_jwt_roles Samples.decoder "admin" = Return true.
Proof. reflexivity. Qed.

Example validate_malformed :
  KeycloakConfig.validate_jwt_roles Samples.decoder "not.a.jwt" = Return false.
Proof. reflexivity. Qed.

(** ** Registry client *)

(** Runs the monad of [M]: unfolds its operations and reduces. *)
Ltac run :=
  repeat progress
    (cbv beta iota zeta delta
       [mbind mret M_bind M_ret ret raise try_ gets modify emit lift urlopen
        decode getenv thread_start is_alive join sleep outcome world_of trace];
     cbn [negb andb orb fst snd app]).

Section EurekaFacts.

Implicit Types (self : EurekaConfig) (w : World).

Lemma register_unnamed self w :
  truthy_str (app_name self) = false →
  EurekaConfig.register_with_eureka self w = (Return false, w, []).
Proof.
  intros H. unfold EurekaConfig.register_with_eureka. rewrite H. reflexivity.
Qed.


(** What [register_with_eureka] does, by the registry's answer. *)
Lemma register_named self w :
  truthy_str (app_name self) = true →
  EurekaConfig.register_with_eureka self w =
  match registry w with
  | [] => (Return false, w, [UrlOpen POST (registration_url self)])
  | Response status (Utf8 _) :: rs =>
      (Return (status =? 204)%Z, set_registry rs w,
       [UrlOpen POST (registration_url self)])
  | ErrorStatus _ NotUtf8 :: rs =>
      (Raise UnicodeDecodeError, set_registry rs w,
       [UrlOpen POST (registration_url self)])
  | _ :: rs =>
      (Return false, set_registry rs w,
       [UrlOpen POST (registration_url self)])
  end.
Proof.
  intros H. unfold EurekaConfig.register_with_eureka, registration_url.
  rewrite H. run.
  destruct (registry w) as [|[status [text|]|code [text|]|] rs]; run;
    try reflexivity.
  by destruct (status =? 204)%Z.
Qed.

Lemma deregister_named self w :
  truthy_str (app_name self) = true →
  EurekaConfig.deregister_from_eureka self w =
  match registry w with
  | [] => (Return false, w, [UrlOpen DELETE (instance_url self)])
  | Response status _ :: rs =>
      (Return (status =? 200)%Z, set_registry rs w,
       [UrlOpen DELETE (instance_url self)])
  | _ :: rs =>
      (Return false, set_registry rs w,
       [UrlOpen DELETE (instance_url self)])
  end.
Proof.
  intros H. unfold EurekaConfig.deregister_from_eureka, instance_url.
  rewrite H. run.
  destruct (registry w) as [|[status b|code b|] rs]; run; try reflexivity.
  by destruct (status =? 200)%Z.
Qed.

Lemma send_heartbeat_cases self w :
  EurekaConfig.send_heartbeat self w =
  match registry w with
  | [] => (Return false, w, [UrlOpen PUT (instance_url self)])
  | Response status _ :: rs =>
      (Return (status =? 200)%Z, set_registry rs w,
       [UrlOpen PUT (instance_url self)])
  | _ :: rs =>
      (Return false, set_registry rs w, [UrlOpen PUT (instance_url self)])
  end.
Proof.
  unfold EurekaConfig.send_heartbeat, instance_url. run.
  destruct (registry w) as [|[status b|code b|] rs]; run; try reflexivity.
  by destruct (status =? 200)%Z.
Qed.





(** [register_with_eureka] returns [True] exactly on a 204 answer. *)
Lemma register_true_iff self w :
  truthy_str (app_name self) = true →
  outcome (EurekaConfig.register_with_eureka self w) = Return true
  ↔ ∃ text rs, registry w = Response 204 (Utf8 text) :: rs.
Proof.
  intros H. rewrite (register_named self w H).
  destruct (registry w) as [|[status [text|]|code [text|]|] rs]; cbn;
    try (split; [discriminate | intros (? & ? & [= ])]).
  split.
  - intros [= Hs]. apply Z.eqb_eq in Hs as ->. eauto.
  - intros (? & ? & [= -> _ _]). reflexivity.
Qed.

Lemma register_true self w w2 (t : list event) :
  EurekaConfig.register_with_eureka self w = (Return true, w2, t) →
  ∃ text rs, registry w = Response 204 (Utf8 text) :: rs
             ∧ w2 = set_registry rs w
             ∧ t = [UrlOpen POST (registration_url self)].
Proof.
  destruct (truthy_str (app_name self)) eqn:H.
  - rewrite (register_named self w H).
    destruct (registry w) as [|[status [text|]|code [text|]|] rs];
      try discriminate.
    intros [= Hs <- <-]. apply Z.eqb_eq in Hs as ->. eauto.
  - rewrite (register_unnamed self w H). discriminate.
Qed.

(** C8, at the failing input. The registry answers the registration with
    status 500 and a body that is not UTF-8: [register_with_eureka] does
    not return [False], it raises [UnicodeDecodeError] out of its
    [HTTPError] clause, where the body is decoded for the log line. *)
Theorem register_raises_on_undecodable_error_body :
  truthy_str (app_name Samples.client) = true
  ∧ registry Samples.failing = [ErrorStatus 500 NotUtf8]
  ∧ EurekaConfig.register_with_eureka Samples.client Samples.failing
    = (Raise UnicodeDecodeError, set_registry [] Samples.failing,
       [UrlOpen POST "https://localhost:8761/eureka/eureka/apps/counter-app"]).
Proof. repeat split; reflexivity. Qed.

Lemma get_eureka_config_cached w c :
  _eureka_config w = Some c →
  eureka.get_eureka_config w = (Return c, w, []).
Proof. intros H. unfold eureka.get_eureka_config. run. by rewrite H. Qed.

(** Building the client sends nothing and starts nothing. *)
Lemma get_eureka_config_quiet w : trace (eureka.get_eureka_config w) = [].
Proof.
  unfold eureka.get_eureka_config, EurekaConfig.__init__,
    EurekaConfig._get_network_ip.
  run. repeat (case_match; simplify_eq; run; try reflexivity).
Qed.

Lemma start_heartbeat_cases self w :
  EurekaConfig.start_heartbeat self w =
  if heartbeat_up self w then (Return self, w, [])
  else (Return (EurekaConfig.with_heartbeat true (Some (next_tid w)) self),
        set_threads ({[next_tid w]} ∪ alive w) (S (next_tid w)) w,
        [FlagWrite true; ThreadStart (next_tid w) heartbeat_worker]).
Proof.
  unfold EurekaConfig.start_heartbeat, EurekaConfig.heartbeat_alive,
    heartbeat_up.
  destruct (heartbeat_thread self) as [tid|]; run; [|reflexivity].
  by destruct (bool_decide (tid ∈ alive w)).
Qed.

(** [register_with_eureka] sends one registration request or nothing. *)
Lemma register_trace self w :
  trace (EurekaConfig.register_with_eureka self w) = []
  ∨ trace (EurekaConfig.register_with_eureka self w)
    = [UrlOpen POST (registration_url self)].
Proof.
  destruct (truthy_str (app_name self)) eqn:Hn.
  - right. rewrite (register_named self w Hn).
    by destruct (registry w) as [|[status [text|]|code [text|]|] rs].
  - left. by rewrite (register_unnamed self w Hn).
Qed.

(** The module-level registration, by what its three steps do. *)
Lemma module_register_steps w :
  eureka.register_with_eureka w =
  match eureka.get_eureka_config w with
  | (Return c, w1, _) =>
      match EurekaConfig.register_with_eureka c w1 with
      | (Return true, w2, t1) =>
          match EurekaConfig.start_heartbeat c w2 with
          | (Return c', w3, t2) =>
              (Return (), set_eureka_config (Some c') w3, t1 ++ t2)
          | (Raise e, w3, t2) => (Return (), w3, t1 ++ t2)
          end
      | (_, w2, t1) => (Return (), w2, t1)
      end
  | (Raise e, w1, _) => (Return (), w1, [])
  end.
Proof.
  pose proof (get_eureka_config_quiet w) as Hq.
  unfold eureka.register_with_eureka. run.
  destruct (eureka.get_eureka_config w) as [[[c|e] w1] t0];
    run; simpl in Hq; subst t0; [|reflexivity].
  destruct (EurekaConfig.register_with_eureka c w1) as [[[[|]|e] w2] t1];
    run; rewrite ?app_nil_r; try reflexivity.
  destruct (EurekaConfig.start_heartbeat c w2) as [[[c'|e] w3] t2];
    run; rewrite ?app_nil_r; reflexivity.
Qed.

(** C5. The module-level registration always returns, and the only
    requests it sends are registrations. When it starts a thread, that is
    the heartbeat thread and the client's [register_with_eureka] has
    returned [True] before, on a 204 answer: the trace is the
    registration request, then the start. When the client's
    [register_with_eureka] does not return [True] (it returns [False] or
    raises), nothing follows the registration attempt: no thread is
    started and the client is left as it was. *)
Theorem heartbeat_starts_only_after_registration w :
  outcome (eureka.register_with_eureka w) = Return ()
  ∧ (∀ m url, UrlOpen m url ∈ trace (eureka.register_with_eureka w) → m = POST)
  ∧ (∀ tid tg, ThreadStart tid tg ∈ trace (eureka.register_with_eureka w) →
       tg = heartbeat_worker
       ∧ ∃ c w1 w2 text rs,
           eureka.get_eureka_config w = (Return c, w1, [])
           ∧ registry w1 = Response 204 (Utf8 text) :: rs
           ∧ EurekaConfig.register_with_eureka c w1
             = (Return true, w2, [UrlOpen POST (registration_url c)])
           ∧ trace (eureka.register_with_eureka w)
             = [UrlOpen POST (registration_url c); FlagWrite true;
                ThreadStart tid heartbeat_worker])
  ∧ (∀ c w1 r w2 t,
       eureka.get_eureka_config w = (Return c, w1, []) →
       EurekaConfig.register_with_eureka c w1 = (r, w2, t) →
       r ≠ Return true →
       eureka.register_with_eureka w = (Return (), w2, t)
       ∧ heartbeat_starts t = 0%nat).
Proof.
  pose proof (get_eureka_config_quiet w) as Hq.
  rewrite module_register_steps.
  destruct (eureka.get_eureka_config w) as [[[c|e] w1] t0]; simpl in Hq;
    subst t0.
  2:{ split; [done|]. split; [intros ?? H; inversion H|].
      split; [intros ?? H; inversion H|]. intros ????? [= ]. }
  destruct (EurekaConfig.register_with_eureka c w1) as [[r w2] t1] eqn:Hr.
  pose proof (register_trace c w1) as Ht. rewrite Hr in Ht. cbn in Ht.
  assert (Ht1 : ∀ e, e ∈ t1 → e = UrlOpen POST (registration_url c)).
  { intros e He. destruct Ht as [->| ->]; [inversion He|].
    by apply list_elem_of_singleton in He. }
  assert (Hs : heartbeat_starts t1 = 0%nat) by (by destruct Ht as [->| ->]).
  destruct r as [[|]|e].
  - apply register_true in Hr as Hr'.
    destruct Hr' as (text & rs & Hreg & -> & ->).
    rewrite start_heartbeat_cases.
    destruct (heartbeat_up c (set_registry rs w1)); cbn.
    + split; [done|]. split.
      { intros m url H. apply list_elem_of_singleton in H. by injection H. }
      split.
      { intros tid tg H. apply list_elem_of_singleton in H. discriminate. }
      intros ????? [= <- <-]. rewrite Hr. intros [= <- _ _]. done.
    + split; [done|]. split.
      { intros m url H. apply elem_of_cons in H as [[= -> _]|H]; [done|].
        apply elem_of_cons in H as [[= ]|H].
        by apply list_elem_of_singleton in H. }
      split.
      { intros tid tg H. apply elem_of_cons in H as [[= ]|H].
        apply elem_of_cons in H as [[= ]|H].
        apply list_elem_of_singleton in H. injection H as -> ->.
        split; [done|]. exists c, w1, (set_registry rs w1), text, rs. done. }
      intros ????? [= <- <-]. rewrite Hr. intros [= <- _ _]. done.
  - split; [done|]. split.
    { intros m url H. apply Ht1 in H. by injection H. }
    split.
    { intros tid tg H. apply Ht1 in H. discriminate. }
    intros ????? [= <- <-]. rewrite Hr. intros Heq _. by simplify_eq.
  - split; [done|]. split.
    { intros m url H. apply Ht1 in H. by injection H. }
    split.
    { intros tid tg H. apply Ht1 in H. discriminate. }
    intros ????? [= <- <-]. rewrite Hr. intros Heq _. by simplify_eq.
Qed.

Lemma registry_answered w : registry (answered w) = drop 1 (registry w).
Proof. unfold answered. destruct (registry w) eqn:E; [by rewrite E | done]. Qed.

Lemma rounds_replicate (n : nat) : rounds (replicate n true) = n.
Proof. induction n as [|n IH]; cbn; [reflexivity | by rewrite IH]. Qed.

Lemma rounds_stop (n : nat) (flags : list bool) :
  rounds (replicate n true ++ false :: flags) = n.
Proof. induction n as [|n IH]; cbn; [reflexivity | by rewrite IH]. Qed.

(** One round of the loop: whatever the registry answers, the round ends
    with the sleep and the loop goes on with the flags to come. *)
Lemma heartbeat_worker_round self (flags : list bool) w :
  EurekaConfig._heartbeat_worker self (true :: flags) w =
  match EurekaConfig._heartbeat_worker self flags (answered w) with
  | (r, w2, t) => (r, w2, heartbeat_round self ++ t)
  end.
Proof.
  cbn [EurekaConfig._heartbeat_worker]. run.
  rewrite send_heartbeat_cases. unfold answered, heartbeat_round.
  destruct (registry w) as [|[status b|code b|] rs]; run;
    by destruct (EurekaConfig._heartbeat_worker self flags _) as [[r w2] t].
Qed.

(** C7. For every sequence of rounds and every sequence of answers of the
    registry (failures, other statuses and errors included), the
    heartbeat loop never raises and runs one full round, request and
    sleep, for every round at whose head the running flag is set, up to
    the first round that reads the flag as cleared; each round takes one
    answer of the registry, whatever it is. In particular with the flag
    set at the first [n] rounds the loop does all [n] of them. *)
Theorem heartbeat_loop_survives_failures self (flags : list bool) w :
  outcome (EurekaConfig._heartbeat_worker self flags w) = Return ()
  ∧ trace (EurekaConfig._heartbeat_worker self flags w)
    = concat (replicate (rounds flags) (heartbeat_round self))
  ∧ registry (world_of (EurekaConfig._heartbeat_worker self flags w))
    = drop (rounds flags) (registry w)
  ∧ (∀ n rest, flags = replicate n true ++ false :: rest →
       trace (EurekaConfig._heartbeat_worker self flags w)
       = concat (replicate n (heartbeat_round self))).
Proof.
  assert (H : outcome (EurekaConfig._heartbeat_worker self flags w) = Return ()
    ∧ trace (EurekaConfig._heartbeat_worker self flags w)
      = concat (replicate (rounds flags) (heartbeat_round self))
    ∧ registry (world_of (EurekaConfig._heartbeat_worker self flags w))
      = drop (rounds flags) (registry w)).
  { revert w. induction flags as [|[|] flags IH]; intros w.
    - done.
    - rewrite heartbeat_worker_round.
      destruct (IH (answered w)) as (Ho & Ht & Hw).
      destruct (EurekaConfig._heartbeat_worker self flags (answered w))
        as [[r w2] t].
      cbn in *. subst r t. split; [done|]. split; [done|].
      by rewrite Hw, registry_answered, drop_drop.
    - done. }
  destruct H as (Ho & Ht & Hw). repeat split; try done.
  intros n rest ->. by rewrite Ht, rounds_stop.
Qed.

Lemma heartbeat_up_started self w :
  heartbeat_up (EurekaConfig.with_heartbeat true (Some (next_tid w)) self)
    (set_threads ({[next_tid w]} ∪ alive w) (S (next_tid w)) w) = true.
Proof.
  unfold heartbeat_up. cbn. apply bool_decide_eq_true.
  apply elem_of_union_l, elem_of_singleton. reflexivity.
Qed.

(** C9. Starting the heartbeat twice is starting it once: the second
    call finds the thread alive, changes nothing and starts nothing. Of
    the two calls together at most one starts a loop: exactly one when no
    heartbeat thread was alive before, none when one was. *)
Theorem start_heartbeat_idempotent self w :
  (c ← EurekaConfig.start_heartbeat self; EurekaConfig.start_heartbeat c) w
  = EurekaConfig.start_heartbeat self w
  ∧ (∃ c, outcome (EurekaConfig.start_heartbeat self w) = Return c
          ∧ heartbeat_up c (world_of (EurekaConfig.start_heartbeat self w)) = true
          ∧ EurekaConfig.start_heartbeat c
              (world_of (EurekaConfig.start_heartbeat self w))
            = (Return c, world_of (EurekaConfig.start_heartbeat self w), []))
  ∧ heartbeat_starts
      (trace ((c ← EurekaConfig.start_heartbeat self;
               EurekaConfig.start_heartbeat c) w))
    = (if heartbeat_up self w then 0 else 1)%nat.
Proof.
  run. rewrite (start_heartbeat_cases self w).
  destruct (heartbeat_up self w) eqn:Hup.
  - rewrite (start_heartbeat_cases self w), Hup.
    split; [done|]. split; [|done].
    exists self. cbn. by rewrite (start_heartbeat_cases self w), Hup.
  - rewrite start_heartbeat_cases, heartbeat_up_started.
    split; [done|]. split; [|done].
    eexists. cbn. split; [done|]. split; [apply heartbeat_up_started|].
    by rewrite start_heartbeat_cases, heartbeat_up_started.
Qed.

End EurekaFacts.

(** ** Coordinated shutdown *)

Section ShutdownFacts.

Implicit Types (w : World) (c : EurekaConfig) (h b : nat).

Lemma joined_eureka_config h w : _eureka_config (joined h w) = _eureka_config w.
Proof. unfold joined. by case_bool_decide. Qed.

Lemma joined_registry h w : registry (joined h w) = registry w.
Proof. unfold joined. by case_bool_decide. Qed.

Lemma joined_http_server_thread h w :
  _http_server_thread (joined h w) = _http_server_thread w.
Proof. unfold joined. by case_bool_decide. Qed.

Lemma joined_other h b w :
  h ≠ b →
  bool_decide (b ∈ alive w) = true →
  bool_decide (b ∈ alive (joined h w)) = true.
Proof.
  intros Hne Hb. unfold joined.
  destruct (bool_decide (h ∈ lingering w)); [done|]. cbn.
  apply bool_decide_eq_true in Hb. apply bool_decide_eq_true.
  apply elem_of_difference. split; [done|].
  intros Hin. apply elem_of_singleton in Hin. congruence.
Qed.

Lemma stop_http_server_up w h :
  _http_server_thread w = Some h →
  bool_decide (h ∈ alive w) = true →
  http_server_config.stop_http_server w
  = (Return (), listener_stopped h w, [EventSet; ThreadJoin h 5]).
Proof.
  intros Ht Ha. unfold http_server_config.stop_http_server, listener_stopped,
    joined. run. rewrite Ht. run. rewrite Ha. run. reflexivity.
Qed.

Lemma stop_heartbeat_up w c b :
  _eureka_config w = Some c →
  heartbeat_thread c = Some b →
  bool_decide (b ∈ alive w) = true →
  eureka.stop_heartbeat w
  = (Return (), heartbeat_stopped b c w, [FlagWrite false; ThreadJoin b 5]).
Proof.
  intros Hc Ht Ha. unfold eureka.stop_heartbeat.
  run. rewrite (get_eureka_config_cached w c Hc).
  unfold EurekaConfig.stop_heartbeat, EurekaConfig.heartbeat_alive,
    heartbeat_stopped, joined.
  run. cbn [heartbeat_thread EurekaConfig.with_heartbeat].
  rewrite Ht. run. rewrite Ha. run. reflexivity.
Qed.

Lemma deregister_up w c :
  _eureka_config w = Some c →
  truthy_str (app_name c) = true →
  eureka.deregister_from_eureka w
  = (Return (), answered w, [UrlOpen DELETE (instance_url c)]).
Proof.
  intros Hc Hn. unfold eureka.deregister_from_eureka.
  run. rewrite (get_eureka_config_cached w c Hc).
  rewrite (deregister_named c w Hn). unfold answered.
  by destruct (registry w) as [|[status body|code body|] rs].
Qed.

(** C4. From a fully running instance the coordinated shutdown returns,
    and it is the three stops one after the other: the listener stop
    (signal, then join of the listener thread) has returned, with the
    heartbeat flag still set and nothing sent, before the heartbeat stop
    (flag cleared, then join of the heartbeat thread) begins; the
    heartbeat stop has returned, with nothing sent, before the
    deregistration request is issued; the request is the last event. *)
Theorem shutdown_order w h b c :
  fully_running w h b c →
  http_server_config.stop_http_server w
  = (Return (), listener_stopped h w, [EventSet; ThreadJoin h 5])
  ∧ _eureka_config (listener_stopped h w) = Some c
  ∧ registry (listener_stopped h w) = registry w
  ∧ eureka.stop_heartbeat (listener_stopped h w)
    = (Return (), heartbeat_stopped b c (listener_stopped h w),
       [FlagWrite false; ThreadJoin b 5])
  ∧ registry (heartbeat_stopped b c (listener_stopped h w)) = registry w
  ∧ eureka.deregister_from_eureka (heartbeat_stopped b c (listener_stopped h w))
    = (Return (), answered (heartbeat_stopped b c (listener_stopped h w)),
       [UrlOpen DELETE (instance_url c)])
  ∧ app.cleanup_resources w
    = (Return (), answered (heartbeat_stopped b c (listener_stopped h w)),
       [EventSet; ThreadJoin h 5; FlagWrite false; ThreadJoin b 5;
        UrlOpen DELETE (instance_url c)]).
Proof.
  intros (Hh & Hha & Hc & Hn & Hb & Hrun & Hba & Hne).
  pose proof (stop_http_server_up w h Hh Hha) as H1.
  assert (Hc1 : _eureka_config (listener_stopped h w) = Some c).
  { unfold listener_stopped. cbn. by rewrite joined_eureka_config. }
  assert (Hr1 : registry (listener_stopped h w) = registry w).
  { unfold listener_stopped. cbn. by rewrite joined_registry. }
  assert (Ha1 : bool_decide (b ∈ alive (listener_stopped h w)) = true).
  { unfold listener_stopped. cbn. by apply joined_other. }
  pose proof (stop_heartbeat_up _ c b Hc1 Hb Ha1) as H2.
  assert (Hr2 : registry (heartbeat_stopped b c (listener_stopped h w))
                = registry w).
  { unfold heartbeat_stopped. cbn. by rewrite joined_registry. }
  assert (H3 : eureka.deregister_from_eureka
                 (heartbeat_stopped b c (listener_stopped h w))
               = (Return (),
                  answered (heartbeat_stopped b c (listener_stopped h w)),
                  [UrlOpen DELETE (instance_url c)])).
  { apply (deregister_up _ (EurekaConfig.with_heartbeat false (Some b) c));
      [reflexivity | exact Hn]. }
  repeat (split; [done|]).
  unfold app.cleanup_resources. run. rewrite H1, H2, H3. reflexivity.
Qed.

Lemma shutdown_order_witness :
  app.cleanup_resources Samples.serving
  = (Return (),
     answered (heartbeat_stopped 0 Samples.beating
                 (listener_stopped 1 Samples.serving)),
     [EventSet; ThreadJoin 1 5; FlagWrite false; ThreadJoin 0 5;
      UrlOpen DELETE (instance_url Samples.beating)]).
Proof.
  apply (shutdown_order Samples.serving 1 0 Samples.beating).
  repeat split; try reflexivity. discriminate.
Defined.

End ShutdownFacts.

(** ** Listeners *)

Section ListenerFacts.

Context (P : event → Prop).

Lemma emits_ret {A} (a : A) : emits P (ret a).
Proof. intros w. constructor. Qed.

Lemma emits_raise {A} (e : exn) : emits P (raise e : M A).
Proof. intros w. constructor. Qed.

Lemma emits_gets {A} (f : World → A) : emits P (gets f).
Proof. intros w. constructor. Qed.

Lemma emits_modify (f : World → World) : emits P (modify f).
Proof. intros w. constructor. Qed.

Lemma emits_lift {A} (r : result A) : emits P (lift r).
Proof. intros w. constructor. Qed.

Lemma emits_emit (e : event) : P e → emits P (emit e).
Proof. intros H w. by repeat constructor. Qed.

Lemma emits_bind {A B} (m : M A) (k : A → M B) :
  emits P m → (∀ a, emits P (k a)) → emits P (m ≫= k).
Proof.
  intros Hm Hk w. specialize (Hm w). run.
  destruct (m w) as [[[a|e] w1] t1]; [|done].
  specialize (Hk a w1). destruct (k a w1) as [[r w2] t2].
  apply Forall_app. done.
Qed.

Lemma emits_try {A} (m : M A) (h : exn → M A) :
  emits P m → (∀ e, emits P (h e)) → emits P (try_ m h).
Proof.
  intros Hm Hh w. specialize (Hm w). run.
  destruct (m w) as [[[a|e] w1] t1]; [done|].
  specialize (Hh e w1). destruct (h e w1) as [[r w2] t2].
  apply Forall_app. done.
Qed.

Lemma emits_quiet {A} (m : M A) : (∀ w, trace (m w) = []) → emits P m.
Proof. intros H w. rewrite H. constructor. Qed.

End ListenerFacts.

(** Splits a computation into its steps, down to the events it emits. *)
Ltac steps :=
  repeat first
    [ apply emits_ret | apply emits_raise | apply emits_gets
    | apply emits_modify | apply emits_lift
    | apply emits_emit
    | apply emits_bind; [|intros ?]
    | apply emits_try; [|intros ?]
    | match goal with
      | |- emits _ (match ?x with _ => _ end) => destruct x
      | |- emits _ (if ?x then _ else _) => destruct x
      end ].

Section ListenerOrder.

Import SecurityConfig http_server_config.

Lemma emits_get_eureka_config P : emits P eureka.get_eureka_config.
Proof. apply emits_quiet, get_eureka_config_quiet. Qed.

Lemma emits_urlopen P (m : http_method) (url : string) :
  P (UrlOpen m url) → emits P (urlopen m url).
Proof. intros H. unfold urlopen. steps. exact H. Qed.

(** Registration causes no listener event. *)
Lemma register_no_listener : emits no_listener eureka.register_with_eureka.
Proof.
  unfold eureka.register_with_eureka, EurekaConfig.register_with_eureka,
    EurekaConfig.start_heartbeat, EurekaConfig.heartbeat_alive, decode,
    thread_start, is_alive.
  steps; try apply emits_get_eureka_config; try apply emits_urlopen; done.
Qed.


Lemma start_http_server_cases (app : AppConfig) (port : Z)
    (ssl_context : option SSLContext) (w : World) :
  start_http_server_if_enabled app port ssl_context w =
  if default false (HTTP_ENABLED app) && negb (truthy_ctx ssl_context)
  then (Return (Some (next_tid w)),
        set_http_server_thread (Some (next_tid w))
          (set_threads ({[next_tid w]} ∪ alive w) (S (next_tid w)) w),
        [ThreadStart (next_tid w) (run_http_server (port + 1000))])
  else (Return None, w, []).
Proof.
  unfold start_http_server_if_enabled.
  destruct (default false (HTTP_ENABLED app)), ssl_context; reflexivity.
Qed.







End ListenerOrder.

(** ** TLS context *)

Section TlsFacts.

Import SecurityConfig.

Context (fs : gmap string file).

Lemma load_pem_exists (p : string) :
  load_pem fs p = Return () → exists_ fs p = true.
Proof.
  unfold load_pem, exists_. intros H. apply bool_decide_eq_true.
  destruct (fs !! p); [eauto | discriminate].
Qed.

(** The builder, once TLS is on and certificate and key load. *)
Lemma create_ssl_context_loaded (app : AppConfig) :
  default true (SSL_ENABLED app) = true →
  truthy_str (SSL_CERT_PATH app) = true →
  truthy_str (SSL_KEY_PATH app) = true →
  load_pem fs (fmt (SSL_CERT_PATH app)) = Return () →
  load_pem fs (fmt (SSL_KEY_PATH app)) = Return () →
  create_ssl_context fs app =
  let chain := Some (fmt (SSL_CERT_PATH app), fmt (SSL_KEY_PATH app)) in
  if default false (MUTUAL_TLS_ENABLED app)
     && truthy_str (CA_BUNDLE_PATH app)
     && exists_ fs (fmt (CA_BUNDLE_PATH app))
  then
    match load_pem fs (fmt (CA_BUNDLE_PATH app)) with
    | Return _ =>
        Return (Some {| cert_chain := chain;
                        verify_locations := Some (fmt (CA_BUNDLE_PATH app));
                        check_hostname := false;
                        verify_mode := CERT_REQUIRED |})
    | Raise e => Raise e
    end
  else
    Return (Some {| cert_chain := chain; verify_locations := None;
                    check_hostname := false; verify_mode := CERT_NONE |}).
Proof.
  intros Hssl Hc Hk Hlc Hlk. unfold create_ssl_context.
  rewrite Hssl, Hc, Hk, (load_pem_exists _ Hlc), (load_pem_exists _ Hlk).
  cbn [negb andb]. unfold load_cert_chain. rewrite Hlc, Hlk. cbn.
  destruct (default false (MUTUAL_TLS_ENABLED app)
            && truthy_str (CA_BUNDLE_PATH app)
            && exists_ fs (fmt (CA_BUNDLE_PATH app))); [|reflexivity].
  unfold load_verify_locations.
  by destruct (load_pem fs (fmt (CA_BUNDLE_PATH app))) as [[]|e].
Qed.

(** C6 (as amended). With TLS enabled and a certificate and key that are
    set and load: the builder returns a context that requires client
    certificates exactly when mutual TLS is enabled and the CA bundle
    path is set, exists and loads; when mutual TLS is disabled, or the CA
    bundle path is unset or does not exist, it returns a standard TLS
    context with verification NONE; host name checking is off in every
    context it returns; and a CA bundle that exists but does not load
    makes the builder raise what the load raises. *)
Theorem client_verification_of_built_context (app : AppConfig) :
  default true (SSL_ENABLED app) = true →
  truthy_str (SSL_CERT_PATH app) = true →
  truthy_str (SSL_KEY_PATH app) = true →
  load_pem fs (fmt (SSL_CERT_PATH app)) = Return () →
  load_pem fs (fmt (SSL_KEY_PATH app)) = Return () →
  ((∃ ctx, create_ssl_context fs app = Return (Some ctx)
           ∧ verify_mode ctx = CERT_REQUIRED)
   ↔ default false (MUTUAL_TLS_ENABLED app) = true
     ∧ truthy_str (CA_BUNDLE_PATH app) = true
     ∧ load_pem fs (fmt (CA_BUNDLE_PATH app)) = Return ())
  ∧ (default false (MUTUAL_TLS_ENABLED app) = false
     ∨ truthy_str (CA_BUNDLE_PATH app) = false
     ∨ exists_ fs (fmt (CA_BUNDLE_PATH app)) = false →
     ∃ ctx, create_ssl_context fs app = Return (Some ctx)
            ∧ verify_mode ctx = CERT_NONE)
  ∧ (∀ ctx, create_ssl_context fs app = Return (Some ctx) →
            check_hostname ctx = false)
  ∧ (∀ e, default false (MUTUAL_TLS_ENABLED app) = true →
          truthy_str (CA_BUNDLE_PATH app) = true →
          exists_ fs (fmt (CA_BUNDLE_PATH app)) = true →
          load_pem fs (fmt (CA_BUNDLE_PATH app)) = Raise e →
          create_ssl_context fs app = Raise e).
Proof.
  intros Hssl Hc Hk Hlc Hlk.
  rewrite (create_ssl_context_loaded app Hssl Hc Hk Hlc Hlk). cbn zeta.
  destruct (default false (MUTUAL_TLS_ENABLED app)) eqn:Hm;
    destruct (truthy_str (CA_BUNDLE_PATH app)) eqn:Hca;
    destruct (exists_ fs (fmt (CA_BUNDLE_PATH app))) eqn:Hex;
    cbn [andb];
    try (split; [split; [by intros (ctx & [= <-] & [= ]) | intros (? & ? & Hl)];
                 try discriminate;
                 apply load_pem_exists in Hl; congruence
                |split; [intros _; by eexists
                        |split; [by intros ctx [= <-] | intros; discriminate]]]).
  destruct (load_pem fs (fmt (CA_BUNDLE_PATH app))) as [[]|e] eqn:Hl.
  - split; [split; [done | intros _; by eexists]|].
    split; [intros [H|[H|H]]; discriminate|].
    split; [by intros ctx [= <-] | intros; discriminate].
  - split; [split; [by intros (ctx & [= ] & _) | intros (_ & _ & [= ])]|].
    split; [intros [H|[H|H]]; discriminate|].
    split; [intros ctx [= ] | by intros e' _ _ _ [= <-]].
Qed.

End TlsFacts.

Lemma client_verification_of_built_context_witness :
  (∃ ctx, SecurityConfig.create_ssl_context Samples.disk Samples.tls_app
          = Return (Some ctx)
          ∧ SecurityConfig.verify_mode ctx = SecurityConfig.CERT_REQUIRED)
  ↔ default false (MUTUAL_TLS_ENABLED Samples.tls_app) = true
    ∧ truthy_str (CA_BUNDLE_PATH Samples.tls_app) = true
    ∧ SecurityConfig.load_pem Samples.disk
        (fmt (CA_BUNDLE_PATH Samples.tls_app)) = Return ().
Proof.
  apply (client_verification_of_built_context Samples.disk Samples.tls_app);
    reflexivity.
Defined.

(** C6 as stated fails on a CA bundle that is present but not readable:
    with TLS and mutual TLS enabled and certificate and key in order, the
    builder returns no context at all, it raises. *)
Lemma locked_ca_bundle_fails_the_builder :
  SSL_ENABLED Samples.tls_app = Some true
  ∧ MUTUAL_TLS_ENABLED Samples.tls_app = Some true
  ∧ SecurityConfig.load_pem Samples.disk_locked_ca "keys/certs/server-cert.pem"
    = Return ()
  ∧ SecurityConfig.load_pem Samples.disk_locked_ca "keys/certs/server-key.pem"
    = Return ()
  ∧ (SecurityConfig.readable
       <$> Samples.disk_locked_ca !! "keys/certs/ca-bundle.pem") = Some false
  ∧ SecurityConfig.create_ssl_context Samples.disk_locked_ca Samples.tls_app
    = Raise OSError.
Proof. repeat split; reflexivity. Qed.

(** ** Health status *)

Section HealthFacts.

Import HealthController.

Lemma Qlt_bool_iff (x y : Q) : Qlt_bool x y = true ↔ (x < y)%Q.
Proof.
  unfold Qlt_bool. rewrite negb_true_iff, <- not_true_iff_false, Qle_bool_iff.
  split; [apply Qnot_le_lt | apply Qlt_not_le].
Qed.

(** [is_healthy] on samples that psutil delivers. *)
Lemma is_healthy_sampled (probe : psutil) (memory cpu : Q) :
  memory_percent probe = Return memory →
  cpu_percent probe = Return cpu →
  is_healthy probe = Return (Qlt_bool memory 90 && Qle_bool 0 cpu).
Proof. intros Hm Hc. unfold is_healthy. by rewrite Hm, Hc. Qed.

(** C10 (as amended). When psutil delivers its readings and the CPU
    reading is not negative, the status query reports DOWN, with 503,
    exactly when the process memory reading is at or above 90 percent,
    and UP, with 200, exactly when it is below 90 percent; the CPU
    reading plays no further part. *)
Theorem health_status_by_memory (service_id : string) (own probe : psutil)
    (memory0 cpu0 memory cpu : Q) :
  memory_percent own = Return memory0 →
  cpu_percent own = Return cpu0 →
  virtual_memory own = Return () →
  memory_percent probe = Return memory →
  cpu_percent probe = Return cpu →
  (0 <= cpu)%Q →
  ∃ document code,
    get service_id own probe = Return (document, code)
    ∧ serviceId document = service_id
    ∧ ((status document = "DOWN" ∧ code = 503) ↔ (90 <= memory)%Q)
    ∧ ((status document = "UP" ∧ code = 200) ↔ (memory < 90)%Q).
Proof.
  intros Hm0 Hc0 Hv Hm Hc Hcpu.
  unfold get, get_health_status.
  rewrite Hm0, Hc0, Hv, (is_healthy_sampled probe memory cpu Hm Hc).
  apply Qle_bool_iff in Hcpu. rewrite Hcpu, andb_true_r.
  destruct (Qlt_bool memory 90) eqn:Hlt; cbn.
  - apply Qlt_bool_iff in Hlt. eexists _, _. split; [reflexivity|].
    split; [reflexivity|]. cbn. split.
    + split; [intros [[= ] _] | intros Hle].
      exfalso. by apply (Qlt_not_le _ _ Hlt).
    + split; [done | done].
  - assert (Hle : (90 <= memory)%Q).
    { apply Qnot_lt_le. intros H. apply Qlt_bool_iff in H. congruence. }
    eexists _, _. split; [reflexivity|]. split; [reflexivity|]. cbn. split.
    + split; [done | done].
    + split; [intros [[= ] _] | intros H].
      exfalso. by apply (Qlt_not_le _ _ H).
Qed.

Lemma health_status_by_memory_witness :
  ∃ document code,
    get "counter-app" Samples.at_ease Samples.at_ease = Return (document, code)
    ∧ serviceId document = "counter-app"
    ∧ ((status document = "DOWN" ∧ code = 503) ↔ (90 <= 85 # 2)%Q)
    ∧ ((status document = "UP" ∧ code = 200) ↔ (85 # 2 < 90)%Q).
Proof.
  apply (health_status_by_memory "counter-app" Samples.at_ease Samples.at_ease
           (85 # 2) 5 (85 # 2) 5); try reflexivity.
  discriminate.
Defined.

(** C10 as stated fails at the threshold: a memory reading of exactly 90
    percent does not exceed 90 percent, and the status is DOWN with 503. *)
Lemma health_down_at_threshold :
  ¬ (90 < 90)%Q
  ∧ get "counter-app" Samples.at_threshold Samples.at_threshold
    = Return ({| serviceId := "counter-app"; status := "DOWN";
                 metrics := Some (5%Q, 90%Q) |}, 503).
Proof. split; [apply Qlt_irrefl | reflexivity]. Qed.

End HealthFacts.

(** ** Bearer tokens and guarded endpoints *)

Section GuardFacts.

Import KeycloakGuard.

Lemma str_drop_bearer (t : string) : str_drop 7 ("Bearer " +:+ t) = t.
Proof. reflexivity. Qed.

Lemma extract_token_some (auth_header : option string) (token : string) :
  extract_token_from_header auth_header = Some token
  ↔ auth_header = Some ("Bearer " +:+ token).
Proof.
  unfold extract_token_from_header. split.
  - destruct auth_header as [h|]; [|intros H; discriminate H].
    change (fmt (Some h)) with h.
    destruct (truthy_str (Some h)); [|intros H; discriminate H]. cbn [andb].
    destruct (String.prefix "Bearer " h) eqn:Hp; [|intros H; discriminate H].
    apply prefix_app in Hp as [post ->]. rewrite str_drop_bearer.
    intros H. by injection H as ->.
  - intros ->.
    change (fmt (Some ("Bearer " +:+ token))) with ("Bearer " +:+ token).
    rewrite (proj2 (prefix_app "Bearer " ("Bearer " +:+ token)))
      by (by exists token).
    by rewrite str_drop_bearer.
Qed.

Lemma extract_token_none (auth_header : option string) :
  extract_token_from_header auth_header = None
  ↔ ∀ token, auth_header ≠ Some ("Bearer " +:+ token).
Proof.
  split.
  - intros H token Heq. apply extract_token_some in Heq. congruence.
  - intros H. destruct (extract_token_from_header auth_header) as [t|] eqn:E;
      [|done].
    apply extract_token_some in E. by destruct (H t).
Qed.

(** X1. [extract_token_from_header] returns a token exactly when the
    header is the literal prefix [Bearer ] followed by that token (which
    may be empty); a missing header, an empty one and one with another
    prefix or another case give [None]. *)
Theorem extract_token_bearer (auth_header : option string) :
  (∀ token, extract_token_from_header auth_header = Some token
            ↔ auth_header = Some ("Bearer " +:+ token))
  ∧ (extract_token_from_header auth_header = None
     ↔ ∀ token, auth_header ≠ Some ("Bearer " +:+ token)).
Proof.
  split; [intros token; apply extract_token_some|apply extract_token_none].
Qed.

Context (jwt_decode : string → result pydict).

(** X2. The decorator, for every request and endpoint: it answers 401
    exactly when the request carries no bearer token or an empty one,
    403 exactly when it carries a token that [validate_jwt_roles]
    rejects, and otherwise hands over to the endpoint, whose answer or
    exception goes through unchanged; the decorator itself raises
    nothing. *)
Theorem require_keycloak_roles_answers {A} (f : result A)
    (auth_header : option string) :
  (require_keycloak_roles jwt_decode f auth_header
   = Return (Refused 401 "No JWT token provided")
   ↔ ∀ token, auth_header = Some ("Bearer " +:+ token) → token = EmptyString)
  ∧ (require_keycloak_roles jwt_decode f auth_header
     = Return (Refused 403 "Insufficient permissions")
     ↔ ∃ token, auth_header = Some ("Bearer " +:+ token)
                ∧ token ≠ EmptyString ∧ KeycloakConfig.validate_jwt_roles jwt_decode token = Return false)
  ∧ (∀ a, require_keycloak_roles jwt_decode f auth_header = Return (Served a)
          ↔ ∃ token, auth_header = Some ("Bearer " +:+ token)
                     ∧ token ≠ EmptyString ∧ KeycloakConfig.validate_jwt_roles jwt_decode token = Return true
                     ∧ f = Return a)
  ∧ (∀ e, require_keycloak_roles jwt_decode f auth_header = Raise e
          ↔ ∃ token, auth_header = Some ("Bearer " +:+ token)
                     ∧ token ≠ EmptyString ∧ KeycloakConfig.validate_jwt_roles jwt_decode token = Return true
                     ∧ f = Raise e).
Proof.
  unfold require_keycloak_roles.
  destruct (extract_token_from_header auth_header) as [t|] eqn:E.
  - apply extract_token_some in E as ->.
    assert (Hinj : ∀ token, Some ("Bearer " +:+ t) = Some ("Bearer " +:+ token)
                            → token = t).
    { intros token H. by simplify_eq/=. }
    destruct (validate_jwt_roles_total jwt_decode t) as [b Hb].
    change (fmt (Some t)) with t. rewrite Hb.
    assert (Hex : ∀ P : string → Prop,
              (∃ token, Some ("Bearer " +:+ t) = Some ("Bearer " +:+ token)
                        ∧ P token) ↔ P t).
    { intros P. split; [intros (tok & H & HP); apply Hinj in H; by subst tok|].
      intros HP. by exists t. }
    assert (Hall : (∀ token, Some ("Bearer " +:+ t) = Some ("Bearer " +:+ token)
                             → token = EmptyString) ↔ t = EmptyString).
    { split; [intros H; by apply H|]. intros -> token H. by apply Hinj in H. }
    rewrite Hall, (Hex (λ token, token ≠ EmptyString ∧ KeycloakConfig.validate_jwt_roles jwt_decode token = Return false)).
    split; [|split; [|split; intros x;
      rewrite (Hex (λ token, token ≠ EmptyString ∧ KeycloakConfig.validate_jwt_roles jwt_decode token = Return true
                             ∧ f = _))]];
      rewrite ?Hb; (destruct t as [|c t]; cbn; [|destruct b, f; cbn]);
      split; try discriminate; try tauto; try congruence;
      try (intros (? & ?); congruence);
      try (intros (? & ? & ?); congruence);
      try (intros [= ->]; done).
    all: by intros _.
  - cbn. pose proof (proj1 (extract_token_none auth_header) E) as Hn.
    split; [split; [intros _ token Ht; by destruct (Hn token) | done]|].
    split; [split; [discriminate | intros (token & Ht & _); by destruct (Hn token)]|].
    split; intros ?;
      (split; [discriminate | intros (token & Ht & _); by destruct (Hn token)]).
Qed.

(** X3. [validate_keycloak_jwt] and [SecurityConfig._has_jwt_token] give
    the same verdict on every request but the one whose header is
    [Bearer ] with nothing behind it: there the first says [False]
    without looking, the second asks [validate_jwt_roles] about the
    empty token. Neither raises. *)
Theorem bearer_checks_agree (auth_header : option string) :
  (auth_header ≠ Some "Bearer " →
   _has_jwt_token jwt_decode auth_header
   = validate_keycloak_jwt jwt_decode auth_header)
  ∧ validate_keycloak_jwt jwt_decode (Some "Bearer ") = Return false
  ∧ _has_jwt_token jwt_decode (Some "Bearer ") = KeycloakConfig.validate_jwt_roles jwt_decode EmptyString
  ∧ (∃ b, validate_keycloak_jwt jwt_decode auth_header = Return b)
  ∧ (∃ b, _has_jwt_token jwt_decode auth_header = Return b).
Proof.
  split; [|split; [reflexivity|split; [reflexivity|split]]].
  - intros Hne. unfold _has_jwt_token, validate_keycloak_jwt,
      extract_token_from_header.
    destruct (truthy_str auth_header && String.prefix "Bearer " (fmt auth_header))
      eqn:E; [|reflexivity].
    cbn [fmt default].
    destruct (str_drop 7 (fmt auth_header)) as [|c t] eqn:Ed; [|reflexivity].
    exfalso. apply Hne. apply andb_prop in E as [Ht Hp].
    destruct auth_header as [h|]; [|discriminate].
    change (fmt (Some h)) with h in *.
    apply prefix_app in Hp as [post ->]. rewrite str_drop_bearer in Ed.
    by subst post.
  - unfold validate_keycloak_jwt.
    destruct (negb _); [by eexists | apply validate_jwt_roles_total].
  - unfold _has_jwt_token.
    destruct (_ && _); [apply validate_jwt_roles_total | by eexists].
Qed.

(** X4. The protected count endpoint never raises and never answers
    403: it serves exactly the requests whose header is [Bearer ]
    followed by a token that [validate_jwt_roles] accepts, with the
    count of the counter as it is, and answers every other request,
    a token without the roles included, with 401. *)
Theorem protected_count_answers (auth_header : option string)
    (c : CounterService.Counter) :
  (∃ document,
     CounterController.ProtectedResource_get jwt_decode auth_header c
     = Return (Served document)
     ∧ dict_lookup "count" document = Some (PNum (CounterService.value c))
     ∧ ∃ token, auth_header = Some ("Bearer " +:+ token)
                ∧ KeycloakConfig.validate_jwt_roles jwt_decode token = Return true)
  ∨ (CounterController.ProtectedResource_get jwt_decode auth_header c
     = Return (Refused 401 "JWT token required")
     ∧ ∀ token, auth_header = Some ("Bearer " +:+ token)
                → KeycloakConfig.validate_jwt_roles jwt_decode token = Return false).
Proof.
  unfold CounterController.ProtectedResource_get, _has_jwt_token.
  destruct (truthy_str auth_header && String.prefix "Bearer " (fmt auth_header))
    eqn:E.
  - apply andb_prop in E as [Ht Hp].
    destruct auth_header as [h|]; [|discriminate].
    change (fmt (Some h)) with h in *.
    apply prefix_app in Hp as [post ->]. rewrite str_drop_bearer.
    destruct (validate_jwt_roles_total jwt_decode post) as [[|] Hb];
      rewrite Hb; cbn.
    + left. eexists. split; [reflexivity|]. split; [reflexivity|]. eauto.
    + right. split; [reflexivity|]. intros token H.
      by simplify_eq/=.
  - right. cbn. split; [reflexivity|]. intros token ->.
    change (fmt (Some ("Bearer " +:+ token))) with ("Bearer " +:+ token) in E.
    rewrite (proj2 (prefix_app "Bearer " ("Bearer " +:+ token))) in E
      by (by exists token).
    discriminate E.
Qed.

End GuardFacts.

(** ** The validator that verifies signatures *)

Section StrictFacts.

Import StrictValidator Containment.

Lemma is_str_dict_get (x : string) (d : pydict) :
  is_str x (dict_get d "kid" PNone) = true
  ↔ dict_lookup "kid" d = Some (PStr x).
Proof.
  unfold dict_get. rewrite is_str_true.
  destruct (dict_lookup "kid" d) as [v|]; cbn; [|done].
  split; [by intros -> | by intros [= ->]].
Qed.

Lemma find_key_found (kid : string) (items : list pyval) (key : pydict) :
  find_key kid items = Return (Some key) →
  PDict key ∈ items ∧ dict_lookup "kid" key = Some (PStr kid).
Proof.
  induction items as [|jwk items IH]; [discriminate|].
  cbn [find_key]. destruct jwk as [| b | z | s | l | d]; try discriminate.
  cbn. destruct (is_str kid (dict_get d "kid" PNone)) eqn:Hk.
  - intros [= <-]. split; [left|]. by apply is_str_dict_get.
  - intros H. destruct (IH H) as [Hin Hl]. split; [by right | done].
Qed.

Lemma allowed_issuer (issuers : list string) (issuer : pyval) :
  existsb (λ a, is_str a issuer) issuers = true
  ↔ ∃ a, a ∈ issuers ∧ issuer = PStr a.
Proof.
  rewrite existsb_exists. split; intros (a & Hin & Ha); exists a.
  - split; [by apply list_elem_of_In | by apply is_str_true].
  - split; [by apply list_elem_of_In | by apply is_str_true].
Qed.

Context (unverified_kid : string → result (option string)).
Context (fetch_jwk_set : result pyval).
Context (jwt_decode_verified : string → pydict → result pydict).

Lemma validate_jwt_token_total (self : settings) (token : string) :
  ∃ b, validate_jwt_token unverified_kid fetch_jwk_set jwt_decode_verified
         self token = Return b.
Proof.
  unfold validate_jwt_token, try_except. destruct (_ ≫= _); eauto.
Qed.

(** X5. The strict validator never raises, and whenever it accepts a
    token: the token's header names a key id that is not empty; the key
    set that was fetched holds a key with that id; the token decoded,
    with its signature verified, under that key; the issuer it carries
    is a string of the allow-list; and its scope value contains
    [counter-app.read]. *)
Theorem strict_validator_sound (self : settings) (token : string) :
  (∃ b, validate_jwt_token unverified_kid fetch_jwk_set jwt_decode_verified
          self token = Return b)
  ∧ (validate_jwt_token unverified_kid fetch_jwk_set jwt_decode_verified
       self token = Return true →
     ∃ kid jwk_set keys items key decoded issuer,
       unverified_kid token = Return (Some kid) ∧ kid ≠ EmptyString
       ∧ fetch_jwk_set = Return jwk_set
       ∧ get jwk_set "keys" (PList []) = Return keys
       ∧ iter keys = Return items
       ∧ PDict key ∈ items ∧ dict_lookup "kid" key = Some (PStr kid)
       ∧ jwt_decode_verified token key = Return decoded
       ∧ dict_lookup "iss" decoded = Some (PStr issuer)
       ∧ issuer ∈ allowed_issuers self
       ∧ holds "counter-app.read"
           (dict_get decoded "scope" (PStr EmptyString))).
Proof.
  split; [apply validate_jwt_token_total|].
  unfold validate_jwt_token, try_except.
  destruct (unverified_kid token) as [[kid|]|e] eqn:Hkid; cbn;
    try discriminate.
  destruct kid as [|c kid]; [discriminate|].
  cbn [truthy_str String.eqb negb fmt].
  change (default "None" (Some (String c kid))) with (String c kid).
  destruct fetch_jwk_set as [jwk_set|e] eqn:Hf; cbn; [|discriminate].
  destruct (get jwk_set "keys" (PList [])) as [keys|e] eqn:Hg; cbn;
    [|discriminate].
  destruct (iter keys) as [items|e] eqn:Hi; cbn; [|discriminate].
  destruct (find_key (String c kid) items) as [[key|]|e] eqn:Hfind; cbn;
    try discriminate.
  destruct (truthy_dict key); cbn; [|discriminate].
  destruct (jwt_decode_verified token key) as [decoded|e] eqn:Hd; cbn;
    [|discriminate].
  destruct (existsb _ (allowed_issuers self)) eqn:Hiss; cbn; [|discriminate].
  destruct (contains "counter-app.read" _) as [[|]|e] eqn:Hs; cbn;
    try discriminate.
  intros _. apply find_key_found in Hfind as [Hin Hk].
  apply allowed_issuer in Hiss as (issuer & Hall & Hiss).
  exists (String c kid), jwk_set, keys, items, key, decoded, issuer.
  repeat (split; [done|]). split.
  - unfold dict_get in Hiss.
    destruct (dict_lookup "iss" decoded); cbn in Hiss; congruence.
  - split; [done|]. by apply contains_holds.
Qed.

(** X6. A token whose header names no key id, or an empty one, is
    refused whatever the key set endpoint and the decoder would
    answer. *)
Theorem strict_validator_needs_kid (self : settings) (token : string) :
  (∀ kid, unverified_kid token = Return (Some kid) → kid = EmptyString) →
  validate_jwt_token unverified_kid fetch_jwk_set jwt_decode_verified
    self token = Return false.
Proof.
  intros H. unfold validate_jwt_token, try_except.
  destruct (unverified_kid token) as [[kid|]|e]; cbn; try reflexivity.
  by rewrite (H kid eq_refl).
Qed.

(** X7. Given that [jwt.decode] raises whenever the key it is handed is
    a dict (PyJWT takes PEM text or a key object, and the code hands it
    the item of the key set as it came out of the JSON document), the
    strict validator accepts no token at all: it returns [False] for
    every token, key set and configuration. *)
Theorem strict_validator_accepts_nothing (self : settings) (token : string) :
  (∀ token key, ∃ e, jwt_decode_verified token key = Raise e) →
  validate_jwt_token unverified_kid fetch_jwk_set jwt_decode_verified
    self token = Return false.
Proof.
  intros H.
  destruct (validate_jwt_token_total self token) as [[|] Hb]; [|exact Hb].
  exfalso. revert Hb. unfold validate_jwt_token, try_except.
  destruct (unverified_kid token) as [kid|e]; cbn; [|discriminate].
  destruct (negb (truthy_str kid)); [discriminate|].
  destruct fetch_jwk_set as [jwk_set|e]; cbn; [|discriminate].
  destruct (get jwk_set "keys" (PList [])) as [keys|e]; cbn; [|discriminate].
  destruct (iter keys) as [items|e]; cbn; [|discriminate].
  destruct (find_key (fmt kid) items) as [[key|]|e]; cbn; try discriminate.
  destruct (negb (truthy_dict key)); [discriminate|].
  destruct (H token key) as [e ->]. discriminate.
Qed.

End StrictFacts.

Lemma strict_validator_needs_kid_witness :
  StrictValidator.validate_jwt_token Scenes.kid_of (Return Scenes.key_set)
    Scenes.refusing (StrictValidator.__init__ ∅) "anonymous" = Return false.
Proof.
  apply strict_validator_needs_kid. intros kid H. discriminate H.
Defined.

Lemma strict_validator_accepts_nothing_witness :
  StrictValidator.validate_jwt_token Scenes.kid_of (Return Scenes.key_set)
    Scenes.refusing (StrictValidator.__init__ ∅) "signed" = Return false.
Proof.
  apply strict_validator_accepts_nothing. intros token key.
  exists TypeError. reflexivity.
Defined.

(** ** When the builder gives no context, and when it fails *)

Section BuilderFacts.

Import SecurityConfig.

Context (fs : gmap string file).

Lemma load_pem_cases (p : string) :
  load_pem fs p = Return () ∨ ∃ e, load_pem fs p = Raise e.
Proof.
  unfold load_pem. destruct (fs !! p) as [f|]; [|eauto].
  destruct (readable f), (pem f); cbn; eauto.
Qed.

(** X8. The builder returns [None], without raising, exactly when TLS is
    switched off or the certificate or the key path is unset, empty or
    names no existing file. *)
Theorem no_context_without_material (app : AppConfig) :
  create_ssl_context fs app = Return None
  ↔ SSL_ENABLED app = Some false
    ∨ truthy_str (SSL_CERT_PATH app) = false
    ∨ truthy_str (SSL_KEY_PATH app) = false
    ∨ exists_ fs (fmt (SSL_CERT_PATH app)) = false
    ∨ exists_ fs (fmt (SSL_KEY_PATH app)) = false.
Proof.
  unfold create_ssl_context.
  destruct (SSL_ENABLED app) as [[|]|] eqn:Hssl; cbn [default from_option id negb];
    try (split; [intros _; by left | done]).
  all: destruct (truthy_str (SSL_CERT_PATH app)); cbn [andb negb];
    [|split; [intros _; right; by left | done]].
  all: destruct (truthy_str (SSL_KEY_PATH app)); cbn [andb negb];
    [|split; [intros _; right; right; by left | done]].
  all: destruct (exists_ fs (fmt (SSL_CERT_PATH app))); cbn [andb negb];
    [|split; [intros _; right; right; right; by left | done]].
  all: destruct (exists_ fs (fmt (SSL_KEY_PATH app))); cbn [andb negb];
    [|split; [intros _; right; right; right; by right | done]].
  all: split; [|intros [H|[H|[H|[H|H]]]]; discriminate].
  all: unfold load_cert_chain, load_verify_locations;
    destruct (load_pem fs (fmt (SSL_CERT_PATH app))) as [[]|e]; cbn;
      [|discriminate];
    destruct (load_pem fs (fmt (SSL_KEY_PATH app))) as [[]|e]; cbn;
      [|discriminate];
    destruct (default false (MUTUAL_TLS_ENABLED app)
              && truthy_str (CA_BUNDLE_PATH app)
              && exists_ fs (fmt (CA_BUNDLE_PATH app))); [|discriminate];
    destruct (load_pem fs (fmt (CA_BUNDLE_PATH app))) as [[]|e]; cbn;
      discriminate.
Qed.

(** X9. The builder raises exactly when a file that it found does not
    load: with TLS on and certificate and key present, when the
    certificate does not load, or it does and the key does not, or both
    do and mutual TLS is on with a CA bundle that is present and does
    not load. What it raises is what the load raised. *)
Theorem builder_raises_on_unloadable_material (app : AppConfig) (e : exn) :
  create_ssl_context fs app = Raise e
  ↔ SSL_ENABLED app ≠ Some false
    ∧ truthy_str (SSL_CERT_PATH app) = true
    ∧ truthy_str (SSL_KEY_PATH app) = true
    ∧ exists_ fs (fmt (SSL_CERT_PATH app)) = true
    ∧ exists_ fs (fmt (SSL_KEY_PATH app)) = true
    ∧ (load_pem fs (fmt (SSL_CERT_PATH app)) = Raise e
       ∨ (load_pem fs (fmt (SSL_CERT_PATH app)) = Return ()
          ∧ load_pem fs (fmt (SSL_KEY_PATH app)) = Raise e)
       ∨ (load_pem fs (fmt (SSL_CERT_PATH app)) = Return ()
          ∧ load_pem fs (fmt (SSL_KEY_PATH app)) = Return ()
          ∧ default false (MUTUAL_TLS_ENABLED app) = true
          ∧ truthy_str (CA_BUNDLE_PATH app) = true
          ∧ exists_ fs (fmt (CA_BUNDLE_PATH app)) = true
          ∧ load_pem fs (fmt (CA_BUNDLE_PATH app)) = Raise e)).
Proof.
  unfold create_ssl_context.
  assert (Hen : SSL_ENABLED app ≠ Some false
                ↔ default true (SSL_ENABLED app) = true).
  { destruct (SSL_ENABLED app) as [[|]|]; cbn; split; congruence. }
  rewrite Hen.
  destruct (default true (SSL_ENABLED app)); cbn [negb];
    [|split; [discriminate | intros (? & _); discriminate]].
  destruct (truthy_str (SSL_CERT_PATH app)); cbn [andb negb];
    [|split; [discriminate | intros (_ & ? & _); discriminate]].
  destruct (truthy_str (SSL_KEY_PATH app)); cbn [andb negb];
    [|split; [discriminate | intros (_ & _ & ? & _); discriminate]].
  destruct (exists_ fs (fmt (SSL_CERT_PATH app))); cbn [andb negb];
    [|split; [discriminate | intros (_ & _ & _ & ? & _); discriminate]].
  destruct (exists_ fs (fmt (SSL_KEY_PATH app))); cbn [andb negb];
    [|split; [discriminate | intros (_ & _ & _ & _ & ? & _); discriminate]].
  unfold load_cert_chain, load_verify_locations.
  destruct (load_pem fs (fmt (SSL_CERT_PATH app))) as [[]|e1]; cbn.
  2:{ split; [intros [= ->]; repeat split; by left|].
      intros (_ & _ & _ & _ & _ & [H|[[H _]|[H _]]]); congruence. }
  destruct (load_pem fs (fmt (SSL_KEY_PATH app))) as [[]|e2]; cbn.
  2:{ split; [intros [= ->]; repeat split; right; by left|].
      intros (_ & _ & _ & _ & _ & [H|[[_ H]|[_ [H _]]]]); congruence. }
  destruct (default false (MUTUAL_TLS_ENABLED app)); cbn [andb].
  2:{ split; [discriminate|].
      intros (_ & _ & _ & _ & _ & [H|[[_ H]|(_ & _ & H & _)]]); discriminate. }
  destruct (truthy_str (CA_BUNDLE_PATH app)); cbn [andb].
  2:{ split; [discriminate|].
      intros (_ & _ & _ & _ & _ & [H|[[_ H]|(_ & _ & _ & H & _)]]);
        discriminate. }
  destruct (exists_ fs (fmt (CA_BUNDLE_PATH app))).
  2:{ split; [discriminate|].
      intros (_ & _ & _ & _ & _ & [H|[[_ H]|(_ & _ & _ & _ & H & _)]]);
        discriminate. }
  destruct (load_pem fs (fmt (CA_BUNDLE_PATH app))) as [[]|e3]; cbn.
  - split; [discriminate|].
    intros (_ & _ & _ & _ & _ & [H|[[_ H]|(_ & _ & _ & _ & _ & H)]]);
      discriminate.
  - split; [intros [= ->]; repeat split; right; right; by repeat split|].
    intros (_ & _ & _ & _ & _ & [H|[[_ H]|(_ & _ & _ & _ & _ & H)]]);
      congruence.
Qed.

End BuilderFacts.

(** ** Configuration classes *)

Section ConfigFacts.

Import app_config.

Context (cert_path key_path ca_path : string).

(** X10. For every configuration that [config] knows: TLS is enabled
    exactly when [SSL_ENABLED] is unset or spelt [true] in whatever
    case, and with any other value ([1], [yes], ...) the builder gives
    no context, on any disk; the development configuration, which is
    also the default one, enables the plaintext listener whatever
    [HTTP_ENABLED] says; a name outside the four known ones raises
    [KeyError]. *)
Theorem config_flags (environ : gmap string string) (config_name : string) :
  (∀ cfg, config cert_path key_path ca_path environ config_name = Return cfg →
     (SSL_ENABLED cfg = Some true
      ↔ environ !! "SSL_ENABLED" = None
        ∨ ∃ v, environ !! "SSL_ENABLED" = Some v
               ∧ EurekaConfig.lower v = "true")
     ∧ (SSL_ENABLED cfg ≠ Some true →
        ∀ fs, SecurityConfig.create_ssl_context fs cfg = Return None)
     ∧ (config_name = "development" ∨ config_name = "default" →
        HTTP_ENABLED cfg = Some true))
  ∧ ((∃ e, config cert_path key_path ca_path environ config_name = Raise e)
     ↔ config_name ≠ "development" ∧ config_name ≠ "production"
       ∧ config_name ≠ "testing" ∧ config_name ≠ "default").
Proof.
  assert (Hssl : ∀ cfg, SSL_ENABLED cfg = Some (flag environ "SSL_ENABLED" "true") →
    (SSL_ENABLED cfg = Some true
     ↔ environ !! "SSL_ENABLED" = None
       ∨ ∃ v, environ !! "SSL_ENABLED" = Some v ∧ EurekaConfig.lower v = "true")
    ∧ (SSL_ENABLED cfg ≠ Some true →
       ∀ fs, SecurityConfig.create_ssl_context fs cfg = Return None)).
  { intros cfg Hc. split.
    - rewrite Hc. unfold flag.
      destruct (environ !! "SSL_ENABLED") as [v|]; cbn.
      + split.
        * intros [= H]. apply String.eqb_eq in H. right. eauto.
        * intros [[= ]|(v' & [= <-] & ->)]. reflexivity.
      + split; [by left | reflexivity].
    - intros Hne fs.
      assert (Hf : SSL_ENABLED cfg = Some false).
      { rewrite Hc in *. by destruct (flag environ "SSL_ENABLED" "true"). }
      unfold SecurityConfig.create_ssl_context. by rewrite Hf. }
  split.
  - intros cfg. unfold config.
    destruct (String.eqb config_name "development") eqn:E1.
    { intros [= <-]. split; [by apply Hssl|]. split; [by apply Hssl|]. done. }
    destruct (String.eqb config_name "production") eqn:E2.
    { intros [= <-]. split; [by apply Hssl|]. split; [by apply Hssl|].
      apply String.eqb_eq in E2 as ->. intros [H|H]; discriminate H. }
    destruct (String.eqb config_name "testing") eqn:E3.
    { intros [= <-]. split; [by apply Hssl|]. split; [by apply Hssl|].
      apply String.eqb_eq in E3 as ->. intros [H|H]; discriminate H. }
    destruct (String.eqb config_name "default") eqn:E4; [|discriminate].
    intros [= <-]. split; [by apply Hssl|]. split; [by apply Hssl|]. done.
  - unfold config.
    destruct (String.eqb config_name "development") eqn:E1;
      [apply String.eqb_eq in E1 as ->;
       split; [intros [? [= ]] | intros (? & _); done]|].
    destruct (String.eqb config_name "production") eqn:E2;
      [apply String.eqb_eq in E2 as ->;
       split; [intros [? [= ]] | intros (_ & ? & _); done]|].
    destruct (String.eqb config_name "testing") eqn:E3;
      [apply String.eqb_eq in E3 as ->;
       split; [intros [? [= ]] | intros (_ & _ & ? & _); done]|].
    destruct (String.eqb config_name "default") eqn:E4;
      [apply String.eqb_eq in E4 as ->;
       split; [intros [? [= ]] | intros (_ & _ & _ & ?); done]|].
    apply String.eqb_neq in E1, E2, E3, E4. split; [done | by eexists].
Qed.

End ConfigFacts.

(** ** The health answer and the uptime *)

Section HealthAnswer.

Import HealthController.

(** X11. The health query never raises, whatever psutil does: it always
    answers with the service id and either UP with 200 or DOWN with 503;
    and it answers 200 exactly when all five psutil calls of the query
    succeed, the memory reading taken by [is_healthy] is below 90 and
    its CPU reading is not negative. A failing psutil call, in the
    query or in [is_healthy], therefore gives DOWN with 503. *)
Theorem health_answer (service_id : string) (own probe : psutil) :
  ∃ document code,
    get service_id own probe = Return (document, code)
    ∧ serviceId document = service_id
    ∧ ((status document = "UP" ∧ code = 200)
       ∨ (status document = "DOWN" ∧ code = 503))
    ∧ (code = 200
       ↔ ∃ memory0 cpu0 memory cpu,
           memory_percent own = Return memory0
           ∧ cpu_percent own = Return cpu0
           ∧ virtual_memory own = Return ()
           ∧ memory_percent probe = Return memory
           ∧ cpu_percent probe = Return cpu
           ∧ (memory < 90)%Q ∧ (0 <= cpu)%Q).
Proof.
  unfold get, get_health_status, is_healthy, try_except.
  destruct (memory_percent own) as [m0|e] eqn:Hm0; cbn.
  2:{ eexists _, _. split; [reflexivity|]. split; [reflexivity|].
      split; [by right|]. split; [discriminate|].
      intros (? & ? & ? & ? & [= ] & _). }
  destruct (cpu_percent own) as [c0|e] eqn:Hc0; cbn.
  2:{ eexists _, _. split; [reflexivity|]. split; [reflexivity|].
      split; [by right|]. split; [discriminate|].
      intros (? & ? & ? & ? & _ & [= ] & _). }
  destruct (virtual_memory own) as [[]|e] eqn:Hv.
  2:{ destruct (memory_percent probe) as [m|e1]; cbn;
        [destruct (cpu_percent probe) as [c|e2]; cbn|];
        eexists _, _; (split; [reflexivity|]); (split; [reflexivity|]);
        (split; [by right|]); (split; [discriminate|]);
        intros (? & ? & ? & ? & _ & _ & [= ] & _). }
  destruct (memory_percent probe) as [m|e] eqn:Hm; cbn.
  2:{ eexists _, _. split; [reflexivity|]. split; [reflexivity|].
      split; [by right|]. split; [discriminate|].
      intros (? & ? & ? & ? & _ & _ & _ & [= ] & _). }
  destruct (cpu_percent probe) as [c|e] eqn:Hc; cbn.
  2:{ eexists _, _. split; [reflexivity|]. split; [reflexivity|].
      split; [by right|]. split; [discriminate|].
      intros (? & ? & ? & ? & _ & _ & _ & _ & [= ] & _). }
  destruct (Qlt_bool m memory_threshold) eqn:Hlt; cbn.
  - destruct (Qle_bool cpu_threshold c) eqn:Hle; cbn.
    + eexists _, _. split; [reflexivity|]. split; [reflexivity|].
      split; [by left|]. split; [|done]. intros _.
      exists m0, c0, m, c. repeat (split; [done|]).
      split; [by apply Qlt_bool_iff | by apply Qle_bool_iff].
    + eexists _, _. split; [reflexivity|]. split; [reflexivity|].
      split; [by right|]. split; [discriminate|].
      intros (? & ? & ? & ? & _ & _ & _ & _ & [= <-] & _ & H).
      apply Qle_bool_iff in H. unfold cpu_threshold in Hle. congruence.
  - eexists _, _. split; [reflexivity|]. split; [reflexivity|].
    split; [by right|]. split; [discriminate|].
    intros (? & ? & ? & ? & _ & _ & _ & [= <-] & _ & H & _).
    apply Qlt_bool_iff in H. unfold memory_threshold in Hlt. congruence.
Qed.

End HealthAnswer.

Section UptimeFacts.

Import Uptime.

(** X12. [format_uptime] prints the days of the [timedelta] as they
    are, and its seconds, which Python keeps within a day, as hours
    below 24 and minutes and seconds below 60 that add up to them; the
    microseconds are dropped. An exception of the [timedelta]
    constructor is the function's. *)
Theorem format_uptime_parts (uptime : timedelta) :
  (0 ≤ seconds uptime < 86400)%Z →
  (∃ h m s,
     format_uptime (Return uptime)
     = Return (pretty (days uptime) +:+ "d " +:+ pretty h +:+ "h "
               +:+ pretty m +:+ "m " +:+ pretty s +:+ "s")
     ∧ (0 ≤ h < 24)%Z ∧ (0 ≤ m < 60)%Z ∧ (0 ≤ s < 60)%Z
     ∧ (h * 60 + m) * 60 + s = seconds uptime)
  ∧ ∀ e, format_uptime (Raise e) = Raise e.
Proof.
  intros Hb. split; [|reflexivity].
  unfold format_uptime. cbn [mbind result_bind].
  set (S := seconds uptime) in *.
  eexists _, _, _. split; [reflexivity|].
  split; [|split; [|split]].
  - split; [apply Z.div_pos; lia|]. apply Z.div_lt_upper_bound; lia.
  - split; [apply Z.div_pos; [apply Z.mod_pos_bound|]; lia|].
    apply Z.div_lt_upper_bound; [lia|].
    pose proof (Z.mod_pos_bound S 3600). lia.
  - apply Z.mod_pos_bound. lia.
  - pose proof (Z.div_mod S 3600 ltac:(lia)).
    pose proof (Z.div_mod (S mod 3600) 60 ltac:(lia)).
    assert (S mod 60 = S mod 3600 mod 60) as ->; [|lia].
    change 3600 with (60 * 60) at 1.
    rewrite Z.rem_mul_r by lia.
    rewrite (Z.mul_comm 60 (_ mod 60)), Z.mod_add by lia.
    by rewrite Z.mod_mod by lia.
Qed.

End UptimeFacts.

Lemma format_uptime_parts_witness :
  ∃ h m s,
    Uptime.format_uptime
      (Return {| Uptime.days := 1; Uptime.seconds := 3661;
                 Uptime.microseconds := 250000 |})
    = Return ("1d " +:+ pretty h +:+ "h " +:+ pretty m +:+ "m "
              +:+ pretty s +:+ "s")
    ∧ (0 ≤ h < 24)%Z ∧ (0 ≤ m < 60)%Z ∧ (0 ≤ s < 60)%Z
    ∧ (h * 60 + m) * 60 + s = 3661.
Proof.
  apply (format_uptime_parts
           {| Uptime.days := 1; Uptime.seconds := 3661;
              Uptime.microseconds := 250000 |}).
  cbn. lia.
Defined.

(** ** The counter *)

Section CounterFacts.

Import CounterService CounterController.

Lemma increments_snoc (clock : list string) (now : string) (c : Counter) :
  Scenes.increments (clock ++ [now]) c
  = (increment_count now (Scenes.increments clock c)).2.
Proof. unfold Scenes.increments. by rewrite foldl_app. Qed.

(** X13. Counting composes: after one increment at each reading of a
    clock the count has grown by the number of readings, each increment
    returns the count it leaves, the description is untouched and the
    time stamp is the last reading; a reset in between starts the count
    again from zero, whatever it was. *)
Theorem counting_composes (before after : list string) (now : string)
    (c : Counter) :
  get_count (Scenes.increments before c) = value c + Z.of_nat (length before)
  ∧ description (Scenes.increments before c) = description c
  ∧ last_updated (Scenes.increments before c)
    = default (last_updated c) (last before)
  ∧ (increment_count now c).1 = get_count (increment_count now c).2
  ∧ (increment_count now c).1 = get_count c + 1
  ∧ (reset_count now (Scenes.increments before c)).1 = 0
  ∧ get_count
      (Scenes.increments after (reset_count now (Scenes.increments before c)).2)
    = Z.of_nat (length after)
  ∧ get_count (Scenes.increments after (__init__ now))
    = Z.of_nat (length after).
Proof.
  assert (H : ∀ clock c0,
            get_count (Scenes.increments clock c0)
              = value c0 + Z.of_nat (length clock)
            ∧ description (Scenes.increments clock c0) = description c0).
  { intros clock. induction clock as [|t clock IH] using rev_ind; intros c0.
    - cbn. split; [unfold get_count; lia | done].
    - rewrite increments_snoc. destruct (IH c0) as [Hv Hd].
      unfold get_count in *. cbn. rewrite Hv, Hd, length_app. cbn.
      split; [lia | done]. }
  split; [apply H|]. split; [apply H|]. split.
  - destruct before as [|t before _] using rev_ind; [done|].
    by rewrite increments_snoc, last_snoc.
  - split; [done|]. split; [done|]. split; [done|].
    split; [by rewrite (proj1 (H after _))|].
    by rewrite (proj1 (H after _)).
Qed.

(** X14. In every answer of the counting endpoints the [count] is the
    [value] of the [metadata] that comes with it: the count as it is for
    the read, the count plus one for the increment, which is also what
    the counter holds afterwards, and zero for the reset. *)
Theorem count_matches_metadata (now : string) (c : Counter) :
  (∃ meta, dict_lookup "count" (CountResource_get c) = Some (PNum (value c))
           ∧ dict_lookup "metadata" (CountResource_get c) = Some (PDict meta)
           ∧ dict_lookup "value" meta = Some (PNum (value c)))
  ∧ (∃ meta,
       dict_lookup "count" (IncrementResource_get now c).1
       = Some (PNum (value c + 1))
       ∧ dict_lookup "metadata" (IncrementResource_get now c).1
         = Some (PDict meta)
       ∧ dict_lookup "value" meta = Some (PNum (value c + 1))
       ∧ get_count (IncrementResource_get now c).2 = value c + 1)
  ∧ (∃ meta,
       dict_lookup "count" (ResetResource_get now c).1 = Some (PNum 0)
       ∧ dict_lookup "metadata" (ResetResource_get now c).1 = Some (PDict meta)
       ∧ dict_lookup "value" meta = Some (PNum 0)
       ∧ get_count (ResetResource_get now c).2 = 0).
Proof. repeat split; eexists; repeat split; reflexivity. Qed.

End CounterFacts.

(** ** The registry client, once more *)

Section ClientFacts.

Implicit Types (self c : EurekaConfig) (w : World).

Lemma overrides_keep self :
  app_name (EurekaConfig._apply_environment_overrides self) = app_name self
  ∧ instance_id (EurekaConfig._apply_environment_overrides self)
    = instance_id self
  ∧ heartbeat_thread (EurekaConfig._apply_environment_overrides self)
    = heartbeat_thread self
  ∧ heartbeat_running (EurekaConfig._apply_environment_overrides self)
    = heartbeat_running self
  ∧ heartbeat_interval (EurekaConfig._apply_environment_overrides self)
    = heartbeat_interval self.
Proof.
  unfold EurekaConfig._apply_environment_overrides.
  repeat case_match; done.
Qed.

Lemma init_success (env_arg : option string) w c w1 (t : list event) :
  EurekaConfig.__init__ env_arg w = (Return c, w1, t) →
  truthy_str (app_name c) = true
  ∧ app_name c = environ w !! "APP_NAME"
  ∧ instance_id c = fmt (app_name c) +:+ ":" +:+ uuid4 w (uuids_drawn w)
  ∧ heartbeat_thread c = None
  ∧ heartbeat_running c = false
  ∧ heartbeat_interval c = 30
  ∧ w1 = set_uuids_drawn (S (uuids_drawn w)) w
  ∧ t = [].
Proof.
  unfold EurekaConfig.__init__, EurekaConfig._get_network_ip. run.
  destruct (truthy_str (environ w !! "APP_NAME")) eqn:Hn; run; [|discriminate].
  destruct (match environ w !! "PORT" with
            | Some s => EurekaConfig.int s
            | None => Return 5001
            end) as [port|e]; run; [|discriminate].
  unfold id.
  destruct (route_ip w) as [ip|]; [|destruct (host_ip w) as [ip|]]; run;
    intros Heq; simplify_eq;
    cbn [EurekaConfig.with_urls app_name instance_id heartbeat_thread
           heartbeat_running heartbeat_interval];
    match goal with
    | |- context [EurekaConfig._apply_environment_overrides ?s] =>
        destruct (overrides_keep s) as (-> & -> & -> & -> & ->)
    end; cbn; by rewrite Hn.
Qed.

Lemma int_raises (s : string) (e : exn) :
  EurekaConfig.int s = Raise e → e = ValueError.
Proof.
  unfold EurekaConfig.int. intros H.
  repeat case_match; simplify_eq; done.
Qed.

Lemma init_failure (env_arg : option string) w (e : exn) w1 (t : list event) :
  EurekaConfig.__init__ env_arg w = (Raise e, w1, t) →
  e = ValueError ∧ w1 = w ∧ t = [].
Proof.
  unfold EurekaConfig.__init__, EurekaConfig._get_network_ip. run.
  destruct (truthy_str (environ w !! "APP_NAME")) eqn:Hn; run;
    [|by intros [= <- <- <-]].
  destruct (environ w !! "PORT") as [s|]; run.
  - destruct (EurekaConfig.int s) as [port|err] eqn:Hp; run.
    + unfold id.
      destruct (route_ip w) as [ip|]; [|destruct (host_ip w) as [ip|]]; run;
        discriminate.
    + intros [= <- <- <-]. split; [|done]. by apply int_raises in Hp.
  - unfold id.
    destruct (route_ip w) as [ip|]; [|destruct (host_ip w) as [ip|]]; run;
      discriminate.
Qed.

(** X15. The client is a singleton: once [get_eureka_config] has
    returned a client, the global holds it and every later call returns
    the same one without building anything. A construction that fails
    raises [ValueError] and leaves the world as it was, the global
    still empty, so the next call tries again. *)
Theorem eureka_config_singleton w :
  (∀ c w1 t, eureka.get_eureka_config w = (Return c, w1, t) →
     _eureka_config w1 = Some c
     ∧ eureka.get_eureka_config w1 = (Return c, w1, []))
  ∧ (∀ e w1 t, eureka.get_eureka_config w = (Raise e, w1, t) →
       e = ValueError ∧ w1 = w ∧ t = [] ∧ _eureka_config w = None).
Proof.
  unfold eureka.get_eureka_config at 1 3. run.
  destruct (_eureka_config w) as [c0|] eqn:Hc; run.
  - split; [|discriminate]. intros c w1 t [= <- <- <-].
    split; [done|]. by apply get_eureka_config_cached.
  - destruct (EurekaConfig.__init__ _ w) as [[[c0|e0] w0] t0] eqn:Hi; run.
    + split; [|discriminate]. intros c w1 t [= <- <- <-].
      split; [done|]. by apply get_eureka_config_cached.
    + split; [discriminate|]. intros e w1 t [= <- <- <-].
      apply init_failure in Hi as (-> & -> & ->). done.
Qed.

(** X16. A client that the constructor returns has the application name
    of the environment, which is not empty; its instance id is that
    name, a colon and the uuid drawn for it; its heartbeat is not
    started and beats every 30 seconds; building it sends nothing and
    draws exactly one uuid. *)
Theorem constructed_client (env_arg : option string) w c w1 (t : list event) :
  EurekaConfig.__init__ env_arg w = (Return c, w1, t) →
  truthy_str (app_name c) = true
  ∧ app_name c = environ w !! "APP_NAME"
  ∧ instance_id c = fmt (app_name c) +:+ ":" +:+ uuid4 w (uuids_drawn w)
  ∧ heartbeat_thread c = None
  ∧ heartbeat_running c = false
  ∧ heartbeat_interval c = 30
  ∧ w1 = set_uuids_drawn (S (uuids_drawn w)) w
  ∧ t = [].
Proof. apply init_success. Qed.

(** X17. Two clients built one after the other have different instance
    ids, provided the two uuids drawn for them differ. *)
Theorem instance_ids_are_fresh (a1 a2 : option string) w c1 w1
    (t1 : list event) c2 w2 (t2 : list event) :
  EurekaConfig.__init__ a1 w = (Return c1, w1, t1) →
  EurekaConfig.__init__ a2 w1 = (Return c2, w2, t2) →
  uuid4 w (uuids_drawn w) ≠ uuid4 w (S (uuids_drawn w)) →
  instance_id c1 ≠ instance_id c2.
Proof.
  intros H1 H2 Hu.
  apply init_success in H1 as (_ & Hn1 & Hi1 & _ & _ & _ & -> & _).
  apply init_success in H2 as (_ & Hn2 & Hi2 & _).
  cbn in Hn2, Hi2. rewrite Hi1, Hi2, Hn1, Hn2. intros Heq.
  apply String.app_inj in Heq. by injection Heq.
Qed.





(** X19. Stopping the heartbeat and starting it again at once: when the
    old thread ends within the join, a new thread is started and the
    flag is set again; when it outlives the join, the start finds it
    alive and does nothing: no thread is started, the flag stays
    cleared and the client keeps the old thread. *)
Theorem restart_after_stop self w (b : nat) :
  heartbeat_thread self = Some b →
  bool_decide (b ∈ alive w) = true →
  (bool_decide (b ∈ lingering w) = true →
   (c ← EurekaConfig.stop_heartbeat self; EurekaConfig.start_heartbeat c) w
   = (Return (EurekaConfig.with_heartbeat false (Some b) self), w,
      [FlagWrite false; ThreadJoin b 5]))
  ∧ (bool_decide (b ∈ lingering w) = false →
     outcome ((c ← EurekaConfig.stop_heartbeat self;
               EurekaConfig.start_heartbeat c) w)
     = Return (EurekaConfig.with_heartbeat true (Some (next_tid w))
                 (EurekaConfig.with_heartbeat false (Some b) self))
     ∧ trace ((c ← EurekaConfig.stop_heartbeat self;
               EurekaConfig.start_heartbeat c) w)
       = [FlagWrite false; ThreadJoin b 5; FlagWrite true;
          ThreadStart (next_tid w) heartbeat_worker]).
Proof.
  intros Ht Ha.
  unfold EurekaConfig.stop_heartbeat, EurekaConfig.heartbeat_alive.
  run. cbn [heartbeat_thread EurekaConfig.with_heartbeat]. rewrite Ht.
  run. rewrite Ha. run. split; intros Hl; rewrite Hl.
  - rewrite start_heartbeat_cases. unfold heartbeat_up. cbn. rewrite Ha.
    reflexivity.
  - rewrite start_heartbeat_cases. unfold heartbeat_up. cbn.
    rewrite bool_decide_eq_false_2; [done|].
    intros Hin. apply elem_of_difference in Hin as [_ Hin].
    apply Hin. by apply elem_of_singleton.
Qed.

End ClientFacts.

Lemma constructed_client_witness :
  truthy_str (app_name Samples.client) = true.
Proof.
  apply (constructed_client None Samples.fresh Samples.client
           (set_uuids_drawn 1 Samples.fresh) []).
  reflexivity.
Defined.

Lemma instance_ids_are_fresh_witness :
  instance_id Samples.client ≠ instance_id Scenes.second_client.
Proof.
  apply (instance_ids_are_fresh None None Samples.fresh Samples.client
           (set_uuids_drawn 1 Samples.fresh) []
           Scenes.second_client (set_uuids_drawn 2 Samples.fresh) []);
    [reflexivity | reflexivity | discriminate].
Defined.


Lemma restart_after_stop_witness :
  trace ((c ← EurekaConfig.stop_heartbeat Samples.beating;
          EurekaConfig.start_heartbeat c) Samples.serving)
  = [FlagWrite false; ThreadJoin 0 5; FlagWrite true;
     ThreadStart 2 heartbeat_worker].
Proof.
  destruct (restart_after_stop Samples.beating Samples.serving 0
              eq_refl eq_refl) as [_ H].
  apply H. reflexivity.
Defined.

(** ** The plaintext listener's thread *)

Section ListenerThread.

Import http_server_config.

Implicit Types (w : World) (h : nat).

Lemma stop_http_server_cases w :
  stop_http_server w =
  match _http_server_thread w with
  | Some h =>
      if bool_decide (h ∈ alive w)
      then (Return (), listener_stopped h w, [EventSet; ThreadJoin h 5])
      else (Return (), w, [])
  | None => (Return (), w, [])
  end.
Proof.
  unfold stop_http_server, listener_stopped, joined. run.
  destruct (_http_server_thread w) as [h|]; run; [|done].
  destruct (bool_decide (h ∈ alive w)); run; done.
Qed.

(** X20. Stopping the plaintext listener never raises and is idempotent:
    a second stop right after the first does nothing, so stopping twice
    is stopping once, as a computation on the world. The listener thread
    is signalled and joined at most once. *)
Theorem stop_http_server_idempotent w :
  outcome (stop_http_server w) = Return ()
  ∧ (_ ← stop_http_server; stop_http_server) w = stop_http_server w
  ∧ stop_http_server (world_of (stop_http_server w))
    = (Return (), world_of (stop_http_server w), []).
Proof.
  assert (Hsecond : stop_http_server (world_of (stop_http_server w))
                    = (Return (), world_of (stop_http_server w), [])).
  { rewrite (stop_http_server_cases w).
    destruct (_http_server_thread w) as [h|] eqn:Ht.
    - destruct (bool_decide (h ∈ alive w)) eqn:Ha.
      + rewrite stop_http_server_cases. done.
      + rewrite stop_http_server_cases. cbn. rewrite Ht, Ha. done.
    - rewrite stop_http_server_cases. cbn. rewrite Ht. done. }
  split; [|split; [|exact Hsecond]].
  - rewrite stop_http_server_cases.
    destruct (_http_server_thread w) as [h|]; [|done].
    by destruct (bool_decide (h ∈ alive w)).
  - change ((_ ← stop_http_server; stop_http_server) w)
      with (match stop_http_server w with
            | (Return a, w1, t1) =>
                match stop_http_server w1 with
                | (r, w2, t2) => (r, w2, t1 ++ t2)
                end
            | (Raise e, w1, t1) => (Raise e, w1, t1)
            end).
    revert Hsecond. destruct (stop_http_server w) as [[[[]|e] w1] t1] eqn:E.
    + cbn. intros ->. by rewrite app_nil_r.
    + rewrite stop_http_server_cases in E.
      destruct (_http_server_thread w) as [h|]; [|done].
      by destruct (bool_decide (h ∈ alive w)).
Qed.

(** X21. After a stop that found the listener up, the status query
    answers [not_started], with [is_alive] false: the global was
    cleared. It does so also when the thread outlived the join's five
    seconds and is still running. *)
Theorem status_after_stop w h :
  _http_server_thread w = Some h →
  bool_decide (h ∈ alive w) = true →
  get_http_server_status w = (Return (running, true), w, [])
  ∧ get_http_server_status (world_of (stop_http_server w))
    = (Return (not_started, false), world_of (stop_http_server w), [])
  ∧ bool_decide (h ∈ alive (world_of (stop_http_server w)))
    = bool_decide (h ∈ lingering w).
Proof.
  intros Ht Ha. rewrite (stop_http_server_up w h Ht Ha).
  split; [|split].
  - unfold get_http_server_status. run. rewrite Ht. run. by rewrite Ha.
  - reflexivity.
  - unfold world_of, listener_stopped, joined. cbn.
    destruct (bool_decide (h ∈ lingering w)) eqn:Hl; cbn; [exact Ha|].
    apply bool_decide_eq_false. intros Hin.
    apply elem_of_difference in Hin. destruct Hin as [_ Hn].
    apply Hn. by apply elem_of_singleton.
Qed.

End ListenerThread.

Lemma status_after_stop_witness :
  bool_decide (1%nat ∈ lingering Samples.serving) = true
  ∧ http_server_config.get_http_server_status
      (world_of (http_server_config.stop_http_server Samples.serving))
    = (Return (http_server_config.not_started, false),
       world_of (http_server_config.stop_http_server Samples.serving), []).
Proof.
  split; [reflexivity|].
  apply (status_after_stop Samples.serving 1); reflexivity.
Defined.

(** ** Start-up and shutdown of the process *)

Section ProcessFacts.

Import SecurityConfig http_server_config.

Implicit Types (w : World) (c : EurekaConfig) (h b : nat).

(** A [try] whose handler swallows everything returns. *)
Lemma try_swallow_returns (m : M unit) w :
  outcome (try_ m (λ _, ret ()) w) = Return ().
Proof. run. destruct (m w) as [[[[]|e] w1] t1]; done. Qed.

Lemma bind_unit_returns (m k : M unit) w :
  (∀ w', outcome (m w') = Return ()) →
  (∀ w', outcome (k w') = Return ()) →
  outcome ((_ ← m; k) w) = Return ().
Proof.
  intros Hm Hk. specialize (Hm w). run.
  destruct (m w) as [[[[]|e] w1] t1]; [|done].
  specialize (Hk w1). by destruct (k w1) as [[r w2] t2].
Qed.

Lemma bind_unit_steps (m k : M unit) w :
  outcome (m w) = Return () →
  (_ ← m; k) w
  = (outcome (k (world_of (m w))), world_of (k (world_of (m w))),
     trace (m w) ++ trace (k (world_of (m w)))).
Proof.
  run. destruct (m w) as [[[[]|e] w1] t1]; cbn; [|intros H; discriminate H].
  intros _. by destruct (k w1) as [[r w2] t2].
Qed.

Lemma module_register_returns w :
  outcome (eureka.register_with_eureka w) = Return ().
Proof. apply try_swallow_returns. Qed.

Lemma cleanup_returns w : outcome (app.cleanup_resources w) = Return ().
Proof.
  unfold app.cleanup_resources.
  apply bind_unit_returns.
  - intros w'. rewrite stop_http_server_cases.
    destruct (_http_server_thread w') as [h|]; [|done].
    by destruct (bool_decide (h ∈ alive w')).
  - intros w'. apply bind_unit_returns; intros w''; apply try_swallow_returns.
Qed.

Lemma cleanup_stop_events : emits Scenes.is_stop_event app.cleanup_resources.
Proof.
  unfold app.cleanup_resources, stop_http_server, eureka.stop_heartbeat,
    eureka.deregister_from_eureka, EurekaConfig.stop_heartbeat,
    EurekaConfig.deregister_from_eureka, EurekaConfig.heartbeat_alive,
    join, is_alive.
  steps; try apply emits_get_eureka_config; try apply emits_urlopen; done.
Qed.

(** X24. The coordinated shutdown returns in every world, whatever is
    running and whatever the registry answers, and all it does is
    stopping: every event is a signal to the listener, a join, the
    clearing of the heartbeat flag or a removal request. *)
Theorem cleanup_always_returns w :
  outcome (app.cleanup_resources w) = Return ()
  ∧ Forall Scenes.is_stop_event (trace (app.cleanup_resources w)).
Proof. split; [apply cleanup_returns|apply cleanup_stop_events]. Qed.

Lemma get_eureka_config_environ w :
  environ (world_of (eureka.get_eureka_config w)) = environ w.
Proof.
  unfold eureka.get_eureka_config. run.
  destruct (_eureka_config w) as [c|]; run; [done|].
  destruct (EurekaConfig.__init__ _ w) as [[[c|e] w1] t] eqn:E; run.
  - apply init_success in E. by destruct E as (_ & _ & _ & _ & _ & _ & -> & _).
  - apply init_failure in E. by destruct E as (_ & -> & _).
Qed.

Lemma client_register_environ c w :
  environ (world_of (EurekaConfig.register_with_eureka c w)) = environ w.
Proof.
  destruct (truthy_str (app_name c)) eqn:Hn.
  - rewrite (register_named c w Hn).
    destruct (registry w) as [|[status [text|]|code [text|]|] rs]; done.
  - by rewrite (register_unnamed c w Hn).
Qed.

Lemma module_register_environ w :
  environ (world_of (eureka.register_with_eureka w)) = environ w.
Proof.
  rewrite module_register_steps.
  pose proof (get_eureka_config_environ w) as H0.
  destruct (eureka.get_eureka_config w) as [[[c|e] w1] t0]; [|exact H0].
  cbn in H0.
  pose proof (client_register_environ c w1) as H1.
  destruct (EurekaConfig.register_with_eureka c w1) as [[[[]|e] w2] t1];
    cbn in H1; try (cbn; congruence).
  rewrite start_heartbeat_cases.
  destruct (heartbeat_up c w2); cbn; congruence.
Qed.

Lemma register_quiet_exit :
  emits (λ e, Scenes.is_exit e = false ∧ Scenes.is_delete e = false
              ∧ Scenes.is_serve e = false)
    eureka.register_with_eureka.
Proof.
  unfold eureka.register_with_eureka, EurekaConfig.register_with_eureka,
    EurekaConfig.start_heartbeat, EurekaConfig.heartbeat_alive, decode,
    thread_start, is_alive.
  steps; try apply emits_get_eureka_config; try apply emits_urlopen; done.
Qed.

Lemma main_steps (app : AppConfig) (fs : gmap string file)
    (app_run : app.served) w :
  app.main app fs app_run w =
  let r := eureka.register_with_eureka w in
  match Scenes.port_of w, create_ssl_context fs app with
  | Return port, Return ctx =>
      let s := start_http_server_if_enabled app port ctx (world_of r) in
      let c := app.cleanup_resources (world_of s) in
      let served := trace r ++ trace s ++ [AppRun port (truthy_ctx ctx)] in
      match app_run with
      | app.Ended => (Return (), world_of s, served)
      | app.Interrupted => (Return (), world_of c, served ++ trace c)
      | app.Failed e => (Return (), world_of c, served ++ trace c ++ [Exit 1])
      end
  | _, _ =>
      let c := app.cleanup_resources (world_of r) in
      (Return (), world_of c, trace r ++ trace c ++ [Exit 1])
  end.
Proof.
  pose proof (module_register_returns w) as Hr.
  pose proof (module_register_environ w) as He.
  unfold app.main, Scenes.port_of. run.
  destruct (eureka.register_with_eureka w) as [[[[]|e] w1] t1]; [|done].
  cbn in He. cbn [fst snd]. rewrite He.
  assert (Hclean : ∀ w', ∃ w2 t2,
            app.cleanup_resources w' = (Return (), w2, t2)).
  { intros w'. pose proof (cleanup_returns w') as Hc.
    destruct (app.cleanup_resources w') as [[[[]|e] w2] t2]; [|done].
    by eexists _, _. }
  destruct (match environ w !! "PORT" with
            | Some s => EurekaConfig.int s
            | None => Return 5001
            end) as [port|e]; run.
  - destruct (create_ssl_context fs app) as [ctx|e]; run.
    + rewrite start_http_server_cases.
      destruct (default false (HTTP_ENABLED app) && negb (truthy_ctx ctx));
        cbn [fst snd];
        match goal with
        | |- context [app.cleanup_resources ?w'] =>
            destruct (Hclean w') as (w2 & t2 & Hc)
        end;
        destruct app_run as [| |e]; run; rewrite ?Hc; cbn;
        rewrite ?app_nil_r, <- ?app_assoc; reflexivity.
    + destruct (Hclean w1) as (w2 & t2 & ->). cbn.
      by rewrite ?app_nil_r.
  - destruct (Hclean w1) as (w2 & t2 & ->). cbn. by rewrite ?app_nil_r.
Qed.


(** X26. When [PORT] is not a number, or the TLS builder raises, the
    main block serves nothing and starts no plaintext listener: after
    the registration it runs the coordinated shutdown and leaves with
    exit code 1. *)
Theorem main_fails (app : AppConfig) (fs : gmap string file)
    (app_run : app.served) w (e : exn) :
  Scenes.port_of w = Raise e ∨ create_ssl_context fs app = Raise e →
  app.main app fs app_run w
  = (Return (),
     world_of (app.cleanup_resources (world_of (eureka.register_with_eureka w))),
     trace (eureka.register_with_eureka w)
     ++ trace (app.cleanup_resources
                 (world_of (eureka.register_with_eureka w)))
     ++ [Exit 1])
  ∧ Forall (λ e, Scenes.is_serve e = false ∧ is_plaintext_start e = false)
      (trace (app.main app fs app_run w)).
Proof.
  intros H.
  assert (Heq : app.main app fs app_run w
    = (Return (),
       world_of (app.cleanup_resources
                   (world_of (eureka.register_with_eureka w))),
       trace (eureka.register_with_eureka w)
       ++ trace (app.cleanup_resources
                   (world_of (eureka.register_with_eureka w)))
       ++ [Exit 1])).
  { rewrite main_steps. cbv zeta.
    destruct H as [-> | ->]; [done|].
    by destruct (Scenes.port_of w). }
  split; [exact Heq|]. rewrite Heq. cbn [trace snd].
  apply Forall_app. split; [|apply Forall_app; split].
  - pose proof (register_quiet_exit w) as H1.
    pose proof (register_no_listener w) as H2.
    apply Forall_forall. intros x Hx. split.
    + by destruct (proj1 (Forall_forall _ _) H1 x Hx) as (_ & _ & ?).
    + by destruct (proj1 (Forall_forall _ _) H2 x Hx) as [? _].
  - pose proof (cleanup_stop_events
                  (world_of (eureka.register_with_eureka w))) as H1.
    eapply Forall_impl; [exact H1|].
    intros [m url|tid tg|tid s|  |[]|s|p tls|code]; cbn; try done.
    all: by destruct m.
  - by repeat constructor.
Qed.

Lemma cleanup_fully_running w h b c :
  fully_running w h b c →
  app.cleanup_resources w
  = (Return (), answered (heartbeat_stopped b c (listener_stopped h w)),
     [EventSet; ThreadJoin h 5; FlagWrite false; ThreadJoin b 5;
      UrlOpen DELETE (instance_url c)]).
Proof.
  intros (Hh & Hha & Hc & Hn & Hb & Hrun & Hba & Hne).
  pose proof (stop_http_server_up w h Hh Hha) as H1.
  assert (Hc1 : _eureka_config (listener_stopped h w) = Some c).
  { unfold listener_stopped. cbn. by rewrite joined_eureka_config. }
  assert (Ha1 : bool_decide (b ∈ alive (listener_stopped h w)) = true).
  { unfold listener_stopped. cbn. by apply joined_other. }
  pose proof (stop_heartbeat_up _ c b Hc1 Hb Ha1) as H2.
  assert (H3 : eureka.deregister_from_eureka
                 (heartbeat_stopped b c (listener_stopped h w))
               = (Return (),
                  answered (heartbeat_stopped b c (listener_stopped h w)),
                  [UrlOpen DELETE (instance_url c)])).
  { apply (deregister_up _ (EurekaConfig.with_heartbeat false (Some b) c));
      [reflexivity | exact Hn]. }
  unfold app.cleanup_resources. run. rewrite H1, H2, H3. reflexivity.
Qed.

(** The shutdown in a world without listener, with a named client
    whose heartbeat thread is [b]. *)
Lemma cleanup_again w c b :
  _http_server_thread w = None →
  _eureka_config w = Some c →
  truthy_str (app_name c) = true →
  heartbeat_thread c = Some b →
  trace (app.cleanup_resources w)
  = [FlagWrite false]
    ++ (if bool_decide (b ∈ alive w) then [ThreadJoin b 5] else [])
    ++ [UrlOpen DELETE (instance_url c)]
  ∧ registry (world_of (app.cleanup_resources w)) = drop 1 (registry w).
Proof.
  intros Hh Hc Hn Hb.
  unfold app.cleanup_resources.
  rewrite bind_unit_steps; rewrite stop_http_server_cases, Hh; [|done].
  cbn [world_of trace outcome fst snd app].
  assert (H2 : eureka.stop_heartbeat w
    = (Return (),
       set_eureka_config (Some (EurekaConfig.with_heartbeat false (Some b) c))
         (if bool_decide (b ∈ alive w) then joined b w else w),
       [FlagWrite false]
       ++ (if bool_decide (b ∈ alive w) then [ThreadJoin b 5] else []))).
  { unfold eureka.stop_heartbeat.
    run. rewrite (get_eureka_config_cached w c Hc).
    unfold EurekaConfig.stop_heartbeat, EurekaConfig.heartbeat_alive, joined.
    run. cbn [heartbeat_thread EurekaConfig.with_heartbeat].
    rewrite Hb. run. destruct (bool_decide (b ∈ alive w)); run; reflexivity. }
  rewrite bind_unit_steps; rewrite H2; [|done].
  cbn [world_of trace outcome fst snd].
  rewrite (deregister_up _ (EurekaConfig.with_heartbeat false (Some b) c));
    [|reflexivity|exact Hn].
  cbn [world_of trace outcome fst snd]. split.
  - by rewrite <- app_assoc.
  - rewrite registry_answered. cbn.
    destruct (bool_decide (b ∈ alive w)); [|done].
    by rewrite joined_registry.
Qed.

(** X27. A termination signal on a fully running instance shuts it down
    twice: the signal handler runs the coordinated shutdown and exits,
    and on the way out the handler registered with [atexit] runs it
    again. The second run finds no listener, clears the flag again,
    joins the heartbeat thread again if it outlived the first join, and
    sends a second removal request for the same instance. *)
Theorem terminate_cleans_twice w h b c :
  fully_running w h b c →
  outcome (app_handlers.terminate w) = Return ()
  ∧ trace (app_handlers.terminate w)
    = [EventSet; ThreadJoin h 5; FlagWrite false; ThreadJoin b 5;
       UrlOpen DELETE (instance_url c); Exit 0; FlagWrite false]
      ++ (if bool_decide (b ∈ lingering w) then [ThreadJoin b 5] else [])
      ++ [UrlOpen DELETE (instance_url c)]
  ∧ registry (world_of (app_handlers.terminate w)) = drop 2 (registry w).
Proof.
  intros Hrun. pose proof (cleanup_fully_running w h b c Hrun) as H1.
  destruct Hrun as (Hh & Hha & Hc & Hn & Hb & Hrun & Hba & Hne).
  set (w3 := answered (heartbeat_stopped b c (listener_stopped h w))) in *.
  assert (Hh3 : _http_server_thread w3 = None
                ∧ _eureka_config w3
                  = Some (EurekaConfig.with_heartbeat false (Some b) c)
                ∧ alive w3
                  = alive (heartbeat_stopped b c (listener_stopped h w))).
  { subst w3. unfold answered.
    destruct (registry _) as [|r rs];
      (split; [|done]); cbn; by rewrite !joined_http_server_thread. }
  destruct Hh3 as (Hh3 & Hc3 & Ha3).
  assert (Hr3 : registry w3 = drop 1 (registry w)).
  { subst w3. rewrite registry_answered. f_equal.
    unfold heartbeat_stopped, listener_stopped.
    cbn [registry set_eureka_config]. rewrite joined_registry.
    cbn [registry set_http_server_thread]. by rewrite joined_registry. }
  assert (Hb3 : bool_decide (b ∈ alive w3) = bool_decide (b ∈ lingering w)).
  { rewrite Ha3. unfold heartbeat_stopped, listener_stopped, joined. cbn.
    destruct (bool_decide (h ∈ lingering w)) eqn:Hl; cbn.
    - destruct (bool_decide (b ∈ lingering w)) eqn:Hbl; cbn; [exact Hba|].
      apply bool_decide_eq_false. intros Hin.
      apply elem_of_difference in Hin. destruct Hin as [_ Hx].
      apply Hx. by apply elem_of_singleton.
    - destruct (bool_decide (b ∈ lingering w)) eqn:Hbl; cbn.
      + apply bool_decide_eq_true. apply bool_decide_eq_true in Hba.
        apply elem_of_difference. split; [done|].
        intros Hx. apply elem_of_singleton in Hx. exact (Hne (eq_sym Hx)).
      + apply bool_decide_eq_false. intros Hin.
        apply elem_of_difference in Hin. destruct Hin as [_ Hx].
        apply Hx. by apply elem_of_singleton. }
  destruct (cleanup_again w3 (EurekaConfig.with_heartbeat false (Some b) c) b
              Hh3 Hc3 Hn eq_refl) as [Ht2 Hr2].
  pose proof (cleanup_returns w3) as Ho2.
  unfold app_handlers.terminate, app_handlers.signal_handler,
    app_handlers.shutdown_handler.
  run. rewrite H1. run.
  destruct (app.cleanup_resources w3) as [[[[]|e] w4] t2]; [|done].
  cbn in Ht2, Hr2. cbn. rewrite Ht2, Hr2, Hr3, Hb3, drop_drop.
  repeat split.
Qed.



End ProcessFacts.


Lemma main_fails_witness :
  Forall (λ e, Scenes.is_serve e = false ∧ is_plaintext_start e = false)
    (trace (app.main Samples.tls_app Samples.disk_locked_ca app.Ended
              Samples.fresh)).
Proof.
  destruct (main_fails Samples.tls_app Samples.disk_locked_ca app.Ended
              Samples.fresh OSError) as [_ H]; [right; reflexivity|exact H].
Defined.

Lemma terminate_cleans_twice_witness :
  registry (world_of (app_handlers.terminate Samples.serving))
  = drop 2 (registry Samples.serving).
Proof.
  destruct (terminate_cleans_twice Samples.serving 1 0 Samples.beating)
    as (_ & _ & H); [|exact H].
  repeat split; try reflexivity. discriminate.
Defined.

